(** * The market-radar WebSocket hook ([useMarketRadarWebSocket])

    A shallow embedding of the React hook of
    [frontend/app/chat/page.tsx] (lines 641-766): its five [useState] cells,
    its four [useRef] cells, the WebSocket objects and timers it creates, and
    the callbacks it installs on them ([connect], [onopen], [onmessage],
    [onerror], [onclose], the effect and its cleanup).

    The browser is the environment: it decides which event happens next.  An
    event is dispatched to the callback the source installed for it; callbacks
    run one at a time, to completion. *)

From Stdlib Require Import Lia Ascii String.
From stdpp Require Import base list strings.

Local Open Scope string_scope.
Local Open Scope list_scope.
Local Open Scope nat_scope.

(** ** Values coming from [JSON.parse] *)

#[warnings="-register-all"]
Inductive JSON :=
| JNull
| JBool (b : bool)
| JNumber (literal : string)
| JString (s : string)
| JArray (elements : list JSON)
| JObject (members : list (string * JSON)).

(** What a property read can produce: a parsed value, or [undefined]. *)
Inductive Value :=
| undefined
| json (j : JSON).

Abbreviation null := (json JNull).
Abbreviation str s := (json (JString s)).

(** The [data] of a message event, told apart by what [JSON.parse] makes of
    it: text that is not JSON (a [SyntaxError] is thrown), or the JSON text of
    a value (that value is returned). *)
Inductive MessageData :=
| not_json
| json_text (message : JSON).

(** The property names the hook reads. *)
Inductive Field :=
| f_type | f_data | f_timestamp | f_message
| f_snapshot | f_anomalies | f_tempo | f_timeline.

Definition field_name (f : Field) : string :=
  match f with
  | f_type => "type" | f_data => "data"
  | f_timestamp => "timestamp" | f_message => "message"
  | f_snapshot => "snapshot" | f_anomalies => "anomalies"
  | f_tempo => "tempo" | f_timeline => "timeline"
  end.

(** Own-property lookup in a parsed object: when a key is repeated in the
    text, [JSON.parse] keeps the last occurrence. *)
Fixpoint lookup_member (k : string) (ms : list (string * JSON)) : Value :=
  match ms with
  | [] => undefined
  | (k', v) :: ms' =>
      match lookup_member k ms' with
      | undefined => if String.eqb k' k then json v else undefined
      | found => found
      end
  end.

(** [v.f] for one of the names above.  Reading a property of [null] or
    [undefined] throws a [TypeError] ([None]); booleans, numbers, strings and
    arrays have no property of these names, own or inherited. *)
Definition get_property (v : Value) (f : Field) : option Value :=
  match v with
  | undefined => None
  | json JNull => None
  | json (JObject ms) => Some (lookup_member (field_name f) ms)
  | json _ => Some undefined
  end.

Arguments get_property : simpl never.

(** [v === 'literal'] *)
Definition strict_equals_string (v : Value) (literal : string) : bool :=
  match v with
  | json (JString s) => String.eqb s literal
  | _ => false
  end.

(** [v.f] where the read does not throw. *)
Definition member (v : Value) (f : Field) : Value :=
  match get_property v f with
  | Some x => x
  | None => undefined
  end.

(** [message.type === literal], the test [onmessage] branches on; reading
    [type] off [null] throws, so no branch is taken then. *)
Definition has_type (message : JSON) (literal : string) : bool :=
  match get_property (json message) f_type with
  | Some type => strict_equals_string type literal
  | None => false
  end.

(** Whether [message.data.snapshot] and its three siblings can be read:
    [message.data] is neither missing nor [null]. *)
Definition has_data (message : JSON) : bool :=
  match get_property (json message) f_data with
  | Some (json JNull) | Some undefined | None => false
  | Some _ => true
  end.

(** The two frame shapes of the inbound protocol, worded as the
    specification words them (section 6): an update carries a string
    timestamp and a data object whose four facets are each an object or
    null; an error carries a string message.  This is the specification's
    notion of a recognized frame, kept apart from what [onmessage] tests. *)
Definition is_object_or_null (v : Value) : bool :=
  match v with
  | json JNull | json (JObject _) => true
  | _ => false
  end.

Definition is_string (v : Value) : bool :=
  match v with
  | json (JString _) => true
  | _ => false
  end.

Definition spec_update_shape (message : JSON) : bool :=
  has_type message "market_radar_update"
  && is_string (member (json message) f_timestamp)
  && match member (json message) f_data with
     | json (JObject ms) =>
         is_object_or_null (member (json (JObject ms)) f_snapshot)
         && is_object_or_null (member (json (JObject ms)) f_anomalies)
         && is_object_or_null (member (json (JObject ms)) f_tempo)
         && is_object_or_null (member (json (JObject ms)) f_timeline)
     | _ => false
     end.

Definition spec_error_shape (message : JSON) : bool :=
  has_type message "error" && is_string (member (json message) f_message).

Definition spec_recognized (event_data : MessageData) : bool :=
  match event_data with
  | not_json => false
  | json_text message => spec_update_shape message || spec_error_shape message
  end.

(** ** The hook's state *)

Record MarketRadarData := {
  snapshot : Value;
  anomalies : Value;
  tempo : Value;
  timeline : Value;
}.

(** The five [useState] cells, which are also what the hook returns. *)
Record UseMarketRadarWebSocketReturn := {
  data : MarketRadarData;
  isConnected : bool;
  isLoading : bool;
  error : Value;
  lastUpdate : Value;
}.

Inductive ReadyState := CONNECTING | OPEN | CLOSING | CLOSED.

Global Instance ReadyState_eq_dec : EqDecision ReadyState.
Proof. solve_decision. Defined.

(** A WebSocket object.  Its four callbacks are closures of the [connect]
    that created it; all they capture beyond the shared cells is that
    [connect], which is determined by the [symbol] it was memoised for. *)
Record WebSocket := {
  url : string;
  readyState : ReadyState;
  closure_symbol : string;
}.

(** A timer slot holds [Some sym] while a [setTimeout(() => connect(), ...)]
    of the [connect] memoised for [sym] is pending, [None] once it has fired
    or been cleared.  A timer's id is its position; as a value it is truthy,
    like the ids and handles [setTimeout] returns. *)
Abbreviation Timer := (option string).

Record Hook := {
  state : UseMarketRadarWebSocketReturn;
  wsRef : option nat;
  reconnectTimeoutRef : option nat;
  reconnectAttemptsRef : nat;
  mountedRef : bool;
  symbol : string;
  sockets : list WebSocket;
  timers : list Timer;
}.

(** Time is not measured: a pending timer fires at some later point, so
    the delay plays no part below. *)
Definition RECONNECT_DELAY : nat := 3000.
Definition MAX_RECONNECT_ATTEMPTS : nat := 5.

(** *** Field updates *)

Definition with_state (f : UseMarketRadarWebSocketReturn -> UseMarketRadarWebSocketReturn)
    (h : Hook) : Hook :=
  {| state := f (state h); wsRef := wsRef h;
     reconnectTimeoutRef := reconnectTimeoutRef h;
     reconnectAttemptsRef := reconnectAttemptsRef h;
     mountedRef := mountedRef h; symbol := symbol h;
     sockets := sockets h; timers := timers h |}.

Definition setData (d : MarketRadarData) : Hook -> Hook :=
  with_state (fun r =>
    {| data := d; isConnected := isConnected r; isLoading := isLoading r;
       error := error r; lastUpdate := lastUpdate r |}).

Definition setIsConnected (b : bool) : Hook -> Hook :=
  with_state (fun r =>
    {| data := data r; isConnected := b; isLoading := isLoading r;
       error := error r; lastUpdate := lastUpdate r |}).

Definition setIsLoading (b : bool) : Hook -> Hook :=
  with_state (fun r =>
    {| data := data r; isConnected := isConnected r; isLoading := b;
       error := error r; lastUpdate := lastUpdate r |}).

Definition setError (e : Value) : Hook -> Hook :=
  with_state (fun r =>
    {| data := data r; isConnected := isConnected r; isLoading := isLoading r;
       error := e; lastUpdate := lastUpdate r |}).

Definition setLastUpdate (t : Value) : Hook -> Hook :=
  with_state (fun r =>
    {| data := data r; isConnected := isConnected r; isLoading := isLoading r;
       error := error r; lastUpdate := t |}).

Definition set_wsRef (r : option nat) (h : Hook) : Hook :=
  {| state := state h; wsRef := r;
     reconnectTimeoutRef := reconnectTimeoutRef h;
     reconnectAttemptsRef := reconnectAttemptsRef h;
     mountedRef := mountedRef h; symbol := symbol h;
     sockets := sockets h; timers := timers h |}.

Definition set_reconnectTimeoutRef (r : option nat) (h : Hook) : Hook :=
  {| state := state h; wsRef := wsRef h;
     reconnectTimeoutRef := r;
     reconnectAttemptsRef := reconnectAttemptsRef h;
     mountedRef := mountedRef h; symbol := symbol h;
     sockets := sockets h; timers := timers h |}.

Definition set_reconnectAttemptsRef (n : nat) (h : Hook) : Hook :=
  {| state := state h; wsRef := wsRef h;
     reconnectTimeoutRef := reconnectTimeoutRef h;
     reconnectAttemptsRef := n;
     mountedRef := mountedRef h; symbol := symbol h;
     sockets := sockets h; timers := timers h |}.

Definition set_mountedRef (b : bool) (h : Hook) : Hook :=
  {| state := state h; wsRef := wsRef h;
     reconnectTimeoutRef := reconnectTimeoutRef h;
     reconnectAttemptsRef := reconnectAttemptsRef h;
     mountedRef := b; symbol := symbol h;
     sockets := sockets h; timers := timers h |}.

Definition set_symbol (sym : string) (h : Hook) : Hook :=
  {| state := state h; wsRef := wsRef h;
     reconnectTimeoutRef := reconnectTimeoutRef h;
     reconnectAttemptsRef := reconnectAttemptsRef h;
     mountedRef := mountedRef h; symbol := sym;
     sockets := sockets h; timers := timers h |}.

Definition set_sockets (l : list WebSocket) (h : Hook) : Hook :=
  {| state := state h; wsRef := wsRef h;
     reconnectTimeoutRef := reconnectTimeoutRef h;
     reconnectAttemptsRef := reconnectAttemptsRef h;
     mountedRef := mountedRef h; symbol := symbol h;
     sockets := l; timers := timers h |}.

Definition set_timers (l : list Timer) (h : Hook) : Hook :=
  {| state := state h; wsRef := wsRef h;
     reconnectTimeoutRef := reconnectTimeoutRef h;
     reconnectAttemptsRef := reconnectAttemptsRef h;
     mountedRef := mountedRef h; symbol := symbol h;
     sockets := sockets h; timers := l |}.

(** ** Callbacks as computations that may throw

    A callback body runs on the hook's cells and either completes or throws;
    either way the cells keep whatever was written before. *)

Inductive Completion (A : Type) :=
| Normal (a : A) (h : Hook)
| Thrown (h : Hook).
Arguments Normal {A} a h.
Arguments Thrown {A} h.

Definition JS (A : Type) := Hook -> Completion A.

Definition throw {A} : JS A := fun h => Thrown h.

Global Instance JS_ret : MRet JS := fun A a h => Normal a h.
Global Instance JS_bind : MBind JS := fun A B k m h =>
  match m h with
  | Normal a h' => k a h'
  | Thrown h' => Thrown h'
  end.

Definition update (f : Hook -> Hook) : JS unit := fun h => Normal tt (f h).
Definition read {A} (f : Hook -> A) : JS A := fun h => Normal (f h) h.

(** [try { body } catch (err) { handler }] *)
Definition try_catch (body handler : JS unit) : JS unit :=
  fun h => match body h with
           | Normal a h' => Normal a h'
           | Thrown h' => handler h'
           end.

(** The cells after a callback has run; an exception that escapes a
    callback is reported by the browser and changes nothing more. *)
Definition run_callback (m : JS unit) (h : Hook) : Hook :=
  match m h with
  | Normal _ h' => h'
  | Thrown h' => h'
  end.

Definition escapes (m : JS unit) (h : Hook) : bool :=
  match m h with
  | Normal _ _ => false
  | Thrown _ => true
  end.

(** [v.f], throwing on [null] and [undefined]. *)
Definition prop (v : Value) (f : Field) : JS Value :=
  match get_property v f with
  | Some x => mret x
  | None => throw
  end.

Definition JSON_parse (event_data : MessageData) : JS Value :=
  match event_data with
  | not_json => throw
  | json_text message => mret (json message)
  end.

(** ** What the hook takes from its platform *)

Class Platform := {
  (** [String.prototype.toUpperCase] *)
  toUpperCase : string -> string;
  (** [process.env.NEXT_PUBLIC_WS_URL], when defined *)
  NEXT_PUBLIC_WS_URL : option string;
  (** whether [new WebSocket(url)] throws on this URL *)
  WebSocket_rejects : string -> bool;
}.

(** [s.endsWith(suffix)] *)
Definition endsWith (s suffix : string) : bool :=
  let n := String.length s in
  let m := String.length suffix in
  (m <=? n)%nat && String.eqb (String.substring (n - m) m s) suffix.

Section UseMarketRadarWebSocket.
Context `{Platform}.

(** [process.env.NEXT_PUBLIC_WS_URL || 'ws://localhost:8000']: the empty
    string is falsy too. *)
Definition WS_URL : string :=
  match NEXT_PUBLIC_WS_URL with
  | Some u => if String.eqb u "" then "ws://localhost:8000" else u
  | None => "ws://localhost:8000"
  end.

Definition normalizedSymbol (sym : string) : string :=
  if endsWith (toUpperCase sym) "USDT" then sym else sym +:+ "USDT".

Definition wsUrl (sym : string) : string :=
  WS_URL +:+ "/api/v1/market/radar/ws/" +:+ normalizedSymbol sym.

(** *** Browser objects *)

(** [new WebSocket(u)] inside the [connect] memoised for [sym]; the new
    object's id is its position. *)
Definition new_WebSocket (u sym : string) : JS nat :=
  if WebSocket_rejects u then throw
  else fun h =>
    Normal (length (sockets h))
      (set_sockets
         (sockets h ++ [{| url := u; readyState := CONNECTING; closure_symbol := sym |}]) h).

(** [ws.close()]: starts the closing handshake of a socket that is
    connecting or open, and does nothing otherwise. *)
Definition closing (w : WebSocket) : WebSocket :=
  match readyState w with
  | CONNECTING | OPEN =>
      {| url := url w; readyState := CLOSING; closure_symbol := closure_symbol w |}
  | CLOSING | CLOSED => w
  end.

Definition WebSocket_close (ws : nat) : JS unit :=
  update (fun h => set_sockets (alter closing ws (sockets h)) h).

Definition setTimeout (sym : string) : JS nat :=
  fun h => Normal (length (timers h)) (set_timers (timers h ++ [Some sym]) h).

Definition clearTimeout (t : nat) : JS unit :=
  update (fun h => set_timers (alter (fun _ => None) t (timers h)) h).

(** *** The hook's callbacks *)

Definition connect (sym : string) : JS unit :=
  mounted ← read mountedRef;
  if negb mounted then mret tt
  else
    try_catch
      (ws ← new_WebSocket (wsUrl sym) sym;
       update (set_wsRef (Some ws)))
      (update (setError (str "Failed to establish WebSocket connection")) ;;
       update (setIsLoading false)).

Definition onopen : JS unit :=
  update (setIsConnected true) ;;
  update (setIsLoading false) ;;
  update (setError null) ;;
  update (set_reconnectAttemptsRef 0).

(** The [try] block of [onmessage]. *)
Definition onmessage_try (event_data : MessageData) : JS unit :=
  message ← JSON_parse event_data;
  type ← prop message f_type;
  if strict_equals_string type "market_radar_update" then
    d1 ← prop message f_data; snapshot' ← prop d1 f_snapshot;
    d2 ← prop message f_data; anomalies' ← prop d2 f_anomalies;
    d3 ← prop message f_data; tempo' ← prop d3 f_tempo;
    d4 ← prop message f_data; timeline' ← prop d4 f_timeline;
    update (setData {| snapshot := snapshot'; anomalies := anomalies';
                       tempo := tempo'; timeline := timeline' |}) ;;
    timestamp ← prop message f_timestamp;
    update (setLastUpdate timestamp) ;;
    update (setError null)
  else if strict_equals_string type "error" then
    text ← prop message f_message;
    update (setError text)
  else mret tt.

(** Its [catch] block only logs "Failed to parse message". *)
Definition onmessage (event_data : MessageData) : JS unit :=
  try_catch (onmessage_try event_data) (mret tt).

Definition onerror : JS unit :=
  update (setError (str "WebSocket connection error")).

Definition onclose (sym : string) : JS unit :=
  update (setIsConnected false) ;;
  update (set_wsRef None) ;;
  mounted ← read mountedRef;
  attempts ← read reconnectAttemptsRef;
  if mounted && (attempts <? MAX_RECONNECT_ATTEMPTS)%nat then
    update (fun h => set_reconnectAttemptsRef (S (reconnectAttemptsRef h)) h) ;;
    t ← setTimeout sym;
    update (set_reconnectTimeoutRef (Some t))
  else
    attempts ← read reconnectAttemptsRef;
    if (MAX_RECONNECT_ATTEMPTS <=? attempts)%nat then
      update (setError (str "Failed to connect after multiple attempts. Please refresh the page.")) ;;
      update (setIsLoading false)
    else mret tt.

Definition effect (sym : string) : JS unit :=
  update (set_mountedRef true) ;;
  connect sym.

Definition cleanup : JS unit :=
  update (set_mountedRef false) ;;
  timeout ← read reconnectTimeoutRef;
  match timeout with
  | Some t => clearTimeout t
  | None => mret tt
  end ;;
  ws ← read wsRef;
  match ws with
  | Some i => WebSocket_close i ;; update (set_wsRef None)
  | None => mret tt
  end.

(** *** First render *)

Definition initial (sym : string) : Hook :=
  {| state := {| data := {| snapshot := null; anomalies := null;
                            tempo := null; timeline := null |};
                 isConnected := false; isLoading := true;
                 error := null; lastUpdate := null |};
     wsRef := None; reconnectTimeoutRef := None;
     reconnectAttemptsRef := 0; mountedRef := true;
     symbol := sym; sockets := []; timers := [] |}.

Definition mount (sym : string) : Hook :=
  run_callback (effect sym) (initial sym).

(** ** Events

    - [SymbolChange sym]: the component is rendered with another symbol.
      [connect] is memoised on the symbol and the effect depends on
      [connect], so React runs the cleanup of the old effect and then the
      effect for [sym], in one go; with the same symbol nothing runs.
    - [Unmount]: React runs the cleanup.
    - [WsOpen], [WsMessage]: socket [ws] is established, receives a frame.
    - [WsClose], [WsFail]: socket [ws] is closed, cleanly or after a failure
      (an error event then precedes the close event).
    - [TimerFire t]: the delay of timer [t] has elapsed.

    Two things the platform does are left out.  React ignores the setter
    calls of a component that has been unmounted: after [Unmount], [state]
    records what the setters were called with, which no component sees.  And
    a socket whose closing handshake the server starts is in state CLOSING
    for a while before its close event: here a socket goes from OPEN to
    CLOSED when its close event is dispatched, and CLOSING is the state of a
    socket on which the hook has called [close()]. *)

Inductive Event :=
| SymbolChange (sym : string)
| Unmount
| WsOpen (ws : nat)
| WsMessage (ws : nat) (event_data : MessageData)
| WsClose (ws : nat)
| WsFail (ws : nat)
| TimerFire (t : nat).

Definition set_readyState (r : ReadyState) (w : WebSocket) : WebSocket :=
  {| url := url w; readyState := r; closure_symbol := closure_symbol w |}.

(** The browser closes socket [ws] and runs its callbacks in one task: the
    state goes to [CLOSED], then [onerror] runs if the connection failed,
    then [onclose]. *)
Definition dispatch_close (failed : bool) (ws : nat) (h : Hook) : option Hook :=
  match sockets h !! ws with
  | Some w =>
      if decide (readyState w = CLOSED) then None
      else
        let h := set_sockets (alter (set_readyState CLOSED) ws (sockets h)) h in
        let h := if failed then run_callback onerror h else h in
        Some (run_callback (onclose (closure_symbol w)) h)
  | None => None
  end.

(** One event. [None]: the event cannot happen in this state.  A socket
    opens only while connecting, delivers frames only while open, and closes
    once; a timer fires only while pending; the component is rendered or
    unmounted only while it is mounted, which is while [mountedRef] is set
    (the cleanup is what clears it, and a change of symbol sets it again at
    once). *)
Definition step (e : Event) (h : Hook) : option Hook :=
  match e with
  | SymbolChange sym =>
      if mountedRef h then
        if String.eqb sym (symbol h) then Some h
        else Some (run_callback (cleanup ;; update (set_symbol sym) ;; effect sym) h)
      else None
  | Unmount =>
      if mountedRef h then Some (run_callback cleanup h) else None
  | WsOpen ws =>
      match sockets h !! ws with
      | Some w =>
          if decide (readyState w = CONNECTING) then
            Some (run_callback onopen
                    (set_sockets (alter (set_readyState OPEN) ws (sockets h)) h))
          else None
      | None => None
      end
  | WsMessage ws event_data =>
      match sockets h !! ws with
      | Some w =>
          if decide (readyState w = OPEN) then Some (run_callback (onmessage event_data) h)
          else None
      | None => None
      end
  | WsClose ws => dispatch_close false ws h
  | WsFail ws => dispatch_close true ws h
  | TimerFire t =>
      match timers h !! t with
      | Some (Some sym) =>
          Some (run_callback (connect sym)
                  (set_timers (alter (fun _ => None) t (timers h)) h))
      | _ => None
      end
  end.

Fixpoint run (es : list Event) (h : Hook) : option Hook :=
  match es with
  | [] => Some h
  | e :: es' =>
      match step e h with
      | Some h' => run es' h'
      | None => None
      end
  end.

End UseMarketRadarWebSocket.

(** ** Frames by what [onmessage] does with them *)

(** Frames on which [onmessage] writes nothing: text that is not JSON, a
    value whose [type] is neither of the two literals (or cannot be read),
    and an update whose [data] cannot be read. *)
Definition dropped (event_data : MessageData) : bool :=
  match event_data with
  | not_json => true
  | json_text message =>
      if has_type message "market_radar_update" then negb (has_data message)
      else negb (has_type message "error")
  end.

(** Events that reach the update branch of [onmessage]. *)
Definition is_update_event (e : Event) : bool :=
  match e with
  | WsMessage _ (json_text message) =>
      has_type message "market_radar_update" && has_data message
  | _ => false
  end.

(** Events raised by the hook's own sockets and timers, as opposed to the
    component being re-rendered with another symbol or unmounted. *)
Definition is_transport_event (e : Event) : bool :=
  match e with
  | SymbolChange _ | Unmount => false
  | _ => true
  end.

(** ** Traces and invariants *)

Definition close_event (failed : bool) (ws : nat) : Event :=
  if failed then WsFail ws else WsClose ws.

(** Consecutive failures with no open in between: socket [k] closes (with
    or without an error, as the flag says), the timer its [onclose] set
    fires, the socket that timer's [connect] made closes, and so on.  Ids are
    positions, so when [k] sockets and [k] timers came before, the next
    socket and the next timer are both number [k]. *)
Fixpoint consecutive_failures (k : nat) (failed : list bool) : list Event :=
  match failed with
  | [] => []
  | f :: failed' => close_event f k :: TimerFire k :: consecutive_failures (S k) failed'
  end.

(** The shape of the hook during one subscription (from the effect to its
    cleanup): the only socket that is not closed is the one in [wsRef], and
    a timer is pending only while there is no socket, recorded in
    [reconnectTimeoutRef]. *)
Record one_subscription (h : Hook) : Prop := {
  sub_mounted : mountedRef h = true;
  sub_sockets : forall i w,
    sockets h !! i = Some w -> readyState w <> CLOSED -> wsRef h = Some i;
  sub_timers : forall t sym,
    timers h !! t = Some (Some sym) ->
    reconnectTimeoutRef h = Some t /\ wsRef h = None;
}.

Definition all_closed (h : Hook) : Prop :=
  forall i w, sockets h !! i = Some w -> readyState w = CLOSED.

Definition no_timer_pending (h : Hook) : Prop :=
  forall t sym, timers h !! t <> Some (Some sym).

Section Attempts.
Context `{Platform}.

(** Connection number [k] (counting the first one as 0) is under way, after
    [k] failures in a row, and nothing has opened yet. *)
Record attempting (sym : string) (k : nat) (h : Hook) : Prop := {
  att_subscription : one_subscription h;
  att_attempts : reconnectAttemptsRef h = k;
  att_wsRef : wsRef h = Some k;
  att_socket :
    sockets h !! k =
      Some {| url := wsUrl sym; readyState := CONNECTING; closure_symbol := sym |};
  att_sockets : length (sockets h) = S k;
  att_timers : length (timers h) = k;
  att_isLoading : isLoading (state h) = true;
  att_isConnected : isConnected (state h) = false;
}.

End Attempts.

(** ** The default deployment

    A platform to run the hook on: no [NEXT_PUBLIC_WS_URL] in the
    environment, upper-casing of the ASCII letters, and a [WebSocket]
    constructor that refuses exactly the URLs with a fragment (under the
    default base address nothing else in the URL can be refused). *)

Definition ascii_toUpperCase (c : ascii) : ascii :=
  let n := nat_of_ascii c in
  if (97 <=? n)%nat && (n <=? 122)%nat then ascii_of_nat (n - 32) else c.

Fixpoint string_toUpperCase (s : string) : string :=
  match s with
  | EmptyString => EmptyString
  | String c s' => String (ascii_toUpperCase c) (string_toUpperCase s')
  end.

Fixpoint has_fragment (u : string) : bool :=
  match u with
  | EmptyString => false
  | String c u' => Ascii.eqb c "#" || has_fragment u'
  end.

Definition default_deployment : Platform :=
  {| toUpperCase := string_toUpperCase;
     NEXT_PUBLIC_WS_URL := None;
     WebSocket_rejects := has_fragment |}.

(** ** Sample frames and sessions

    Frames as the server sends them, and states the hook reaches on the
    default deployment when subscribed to BTC. *)

Definition sample_snapshot : JSON :=
  JObject [("priceChange", JNumber "1.5"); ("momentum", JString "rising")].

Definition sample_anomalies : JSON :=
  JObject [("alerts", JArray [])].

Definition update_frame (timestamp : string) (sn an te ti : JSON) : JSON :=
  JObject [("type", JString "market_radar_update");
           ("timestamp", JString timestamp);
           ("data", JObject [("snapshot", sn); ("anomalies", an);
                             ("tempo", te); ("timeline", ti)])].

Definition error_frame (text : string) : JSON :=
  JObject [("type", JString "error"); ("message", JString text)].

(** An update with neither a timestamp nor any facet. *)
Definition bare_update : JSON :=
  JObject [("type", JString "market_radar_update"); ("data", JObject [])].

(** An update without data. *)
Definition update_without_data : JSON :=
  JObject [("type", JString "market_radar_update"); ("timestamp", JString "t0")].

Definition ping_frame : JSON := JObject [("type", JString "ping")].

(** An update whose data is null. *)
Definition update_with_null_data : JSON :=
  JObject [("type", JString "market_radar_update");
           ("timestamp", JString "t2");
           ("data", JNull)].

(** An error frame that carries no message. *)
Definition error_without_message : JSON := JObject [("type", JString "error")].

Section Samples.
#[local] Existing Instance default_deployment.

Definition reached (es : list Event) : Hook :=
  match run es (mount "BTC") with
  | Some h => h
  | None => initial "BTC"
  end.

(** The first socket has opened. *)
Definition btc_opened : Hook :=
  Eval vm_compute in reached [WsOpen 0].

(** ... and a first update has arrived, with a snapshot and no anomalies. *)
Definition btc_populated : Hook :=
  Eval vm_compute in
    reached [WsOpen 0;
             WsMessage 0 (json_text (update_frame "t1" sample_snapshot JNull JNull JNull))].

(** ... and then a server error. *)
Definition btc_showing_error : Hook :=
  Eval vm_compute in
    reached [WsOpen 0;
             WsMessage 0 (json_text (update_frame "t1" sample_snapshot JNull JNull JNull));
             WsMessage 0 (json_text (error_frame "boom"))].

(** The first socket has opened and the component was then unmounted. *)
Definition btc_unmounted : Hook :=
  Eval vm_compute in reached [WsOpen 0; Unmount].

(** The first socket has closed before it opened: a reconnect is pending. *)
Definition btc_retrying : Hook :=
  Eval vm_compute in reached [WsClose 0].

(** The first socket has opened and the symbol was then changed to ETH. *)
Definition btc_rebound : Hook :=
  Eval vm_compute in reached [WsOpen 0; SymbolChange "ETH"].

(** Five connections in a row have failed and the sixth is under way. *)
Definition btc_spent : Hook :=
  Eval vm_compute in reached (consecutive_failures 0 [false; true; false; false; true]).

End Samples.

(** ** The hook's result and its users

    What the dashboard page and its cards do with the record the hook
    returns, and what the hook's own interfaces say the record holds. *)

(** The status text in the dashboard header. *)
Definition connection_status (r : UseMarketRadarWebSocketReturn) : string :=
  if isConnected r then "Connected"
  else if isLoading r then "Connecting..."
  else "Disconnected".

(** The cards (ChangeSnapshot, AnomalyAlerts, MarketTempo, MarketTimeline)
    get one facet each as [wsData] and poll over HTTP only when
    [wsData !== undefined] is false. *)
Definition http_fallback (wsData : Value) : bool :=
  match wsData with
  | undefined => true
  | json _ => false
  end.

Definition is_string_or_null (v : Value) : bool :=
  match v with
  | json JNull | json (JString _) => true
  | _ => false
  end.

(** The interfaces [MarketRadarData] and [UseMarketRadarWebSocketReturn],
    as far as values are told apart here: every facet is an object or
    null, and error and lastUpdate are strings or null. *)
Definition as_declared (r : UseMarketRadarWebSocketReturn) : bool :=
  is_object_or_null (snapshot (data r))
  && is_object_or_null (anomalies (data r))
  && is_object_or_null (tempo (data r))
  && is_object_or_null (timeline (data r))
  && is_string_or_null (error r)
  && is_string_or_null (lastUpdate r).

(** Events whose frame, if any, is one [onmessage] drops or has one of
    the two shapes of the protocol. *)
Definition conforming (e : Event) : bool :=
  match e with
  | WsMessage _ event_data => dropped event_data || spec_recognized event_data
  | _ => true
  end.

(** The frame of an event that reaches the update branch of [onmessage]. *)
Definition applied_update (e : Event) : option JSON :=
  match e with
  | WsMessage _ (json_text message) =>
      if has_type message "market_radar_update" && has_data message
      then Some message else None
  | _ => None
  end.

(** The last such frame of a run, after [earlier]. *)
Fixpoint latest_update (earlier : option JSON) (es : list Event) : option JSON :=
  match es with
  | [] => earlier
  | e :: es' =>
      latest_update
        (match applied_update e with
         | Some message => Some message
         | None => earlier
         end) es'
  end.

(** What an update frame carries. *)
Definition frame_data (message : JSON) : MarketRadarData :=
  {| snapshot := member (member (json message) f_data) f_snapshot;
     anomalies := member (member (json message) f_data) f_anomalies;
     tempo := member (member (json message) f_data) f_tempo;
     timeline := member (member (json message) f_data) f_timeline |}.

(** A socket on which [close()] has been called, or that is closed. *)
Definition closing_or_closed (w : WebSocket) : bool :=
  match readyState w with
  | CLOSING | CLOSED => true
  | CONNECTING | OPEN => false
  end.

(** The data and timestamp of frame [o], or the initial nulls. *)
Definition shows (o : option JSON) (r : UseMarketRadarWebSocketReturn) : Prop :=
  match o with
  | Some message =>
      data r = frame_data message /\
      lastUpdate r = member (json message) f_timestamp
  | None =>
      data r = {| snapshot := null; anomalies := null; tempo := null; timeline := null |} /\
      lastUpdate r = null
  end.

(** The hook after its cleanup: the flag is down, no timer is pending and
    [close()] has been called on every socket that was not closed. *)
Record torn_down (h : Hook) : Prop := {
  td_unmounted : mountedRef h = false;
  td_timers : no_timer_pending h;
  td_sockets : forall i w, sockets h !! i = Some w -> closing_or_closed w = true;
}.

(** * The chat page ([ChatPage])

    The state of the page of [frontend/app/chat/page.tsx] (lines 38-177)
    that [sendMessage], [createNewChat] and [switchSession] work on, and the
    calls of [sendMessage] that are under way.  [sendMessage] is asynchronous:
    it runs up to its [fetch], and resumes when the response arrives, at each
    chunk of the streamed body, and when the body ends; any of these waits
    can end in a rejection, which its [catch] handles.  Other events can
    happen in between.  The cells [recentNews], [showSidebar] and
    [showMarketData], which none of the three functions reads or writes, are
    left out. *)

(** [String.prototype.trim] *)
Class Trim := trim : string -> string.

Module Chat.

Inductive Role := user | assistant.

Record Message := {
  role : Role;
  content : string;
  timestamp : option string;
}.

Record ChatSession := {
  id : string;
  title : string;
  session_timestamp : string;
  session_symbol : string;
}.

(** The body [sendMessage] posts to the streaming endpoint. *)
Record ChatRequest := {
  message : string;
  symbol : string;
  conversation_history : list Message;
}.

(** Where a call of [sendMessage] stands: waiting for [fetch], reading the
    body with the text decoded so far, or finished. *)
Inductive Progress :=
| awaiting_response
| reading (accumulatedContent : string)
| settled.

Record Call := {
  request : ChatRequest;
  progress : Progress;
}.

Record Page := {
  messages : list Message;
  input : string;
  isLoading : bool;
  selectedSymbol : string;
  chatSessions : list ChatSession;
  currentSessionId : string;
  calls : list Call;
}.

Definition setMessages (f : list Message -> list Message) (p : Page) : Page :=
  {| messages := f (messages p); input := input p; isLoading := isLoading p;
     selectedSymbol := selectedSymbol p; chatSessions := chatSessions p;
     currentSessionId := currentSessionId p; calls := calls p |}.

Definition setInput (text : string) (p : Page) : Page :=
  {| messages := messages p; input := text; isLoading := isLoading p;
     selectedSymbol := selectedSymbol p; chatSessions := chatSessions p;
     currentSessionId := currentSessionId p; calls := calls p |}.

Definition setIsLoading (b : bool) (p : Page) : Page :=
  {| messages := messages p; input := input p; isLoading := b;
     selectedSymbol := selectedSymbol p; chatSessions := chatSessions p;
     currentSessionId := currentSessionId p; calls := calls p |}.

Definition setSelectedSymbol (sym : string) (p : Page) : Page :=
  {| messages := messages p; input := input p; isLoading := isLoading p;
     selectedSymbol := sym; chatSessions := chatSessions p;
     currentSessionId := currentSessionId p; calls := calls p |}.

Definition setChatSessions (f : list ChatSession -> list ChatSession) (p : Page) : Page :=
  {| messages := messages p; input := input p; isLoading := isLoading p;
     selectedSymbol := selectedSymbol p; chatSessions := f (chatSessions p);
     currentSessionId := currentSessionId p; calls := calls p |}.

Definition setCurrentSessionId (sessionId : string) (p : Page) : Page :=
  {| messages := messages p; input := input p; isLoading := isLoading p;
     selectedSymbol := selectedSymbol p; chatSessions := chatSessions p;
     currentSessionId := sessionId; calls := calls p |}.

Definition set_calls (l : list Call) (p : Page) : Page :=
  {| messages := messages p; input := input p; isLoading := isLoading p;
     selectedSymbol := selectedSymbol p; chatSessions := chatSessions p;
     currentSessionId := currentSessionId p; calls := l |}.

Definition set_progress (g : Progress) (c : Call) : Call :=
  {| request := request c; progress := g |}.

(** The first render, at time [now]. *)
Definition initial (now : string) : Page :=
  {| messages := []; input := ""; isLoading := false; selectedSymbol := "BTC";
     chatSessions := [{| id := "1"; title := "BTC Market Analysis";
                         session_timestamp := now; session_symbol := "BTC" |}];
     currentSessionId := "1"; calls := [] |}.

Definition createNewChat (millis now : string) (p : Page) : Page :=
  let newSession :=
    {| id := millis; title := selectedSymbol p +:+ " Chat";
       session_timestamp := now; session_symbol := selectedSymbol p |} in
  setMessages (fun _ => [])
    (setCurrentSessionId (id newSession)
       (setChatSessions (fun prev => newSession :: prev) p)).

Definition switchSession (sessionId : string) (p : Page) : Page :=
  setMessages (fun _ => []) (setCurrentSessionId sessionId p).

(** The updater of the streaming loop: the last element of the list, if it
    is an assistant message, is changed by [f]; an empty list has no last
    element. *)
Definition update_last_assistant (f : Message -> Message) (prev : list Message)
    : list Message :=
  match prev !! (length prev - 1) with
  | Some lastMessage =>
      match role lastMessage with
      | assistant => <[length prev - 1 := f lastMessage]> prev
      | user => prev
      end
  | None => prev
  end.

Definition set_content (text : string) (m : Message) : Message :=
  {| role := role m; content := text; timestamp := timestamp m |}.

Definition set_timestamp (now : string) (m : Message) : Message :=
  {| role := role m; content := content m; timestamp := Some now |}.

Definition errorMessage : Message :=
  {| role := assistant;
     content := "Sorry, I encountered an error. Please make sure the backend API is running.";
     timestamp := None |}.

Section SendMessage.
Context `{Trim}.

(** [sendMessage], up to its [fetch]. *)
Definition sendMessage (now : string) (p : Page) : Page :=
  if String.eqb (trim (input p)) "" then p
  else
    let userMessage := {| role := user; content := input p; timestamp := Some now |} in
    let body :=
      {| message := input p; symbol := selectedSymbol p +:+ "USDT";
         conversation_history := messages p |} in
    set_calls (calls p ++ [{| request := body; progress := awaiting_response |}])
      (setIsLoading true
         (setInput "" (setMessages (fun prev => prev ++ [userMessage]) p))).

(** Its [catch] block. *)
Definition sendMessage_catch (p : Page) : Page :=
  setMessages (fun prev => prev ++ [errorMessage]) (setIsLoading false p).

(** [fetch] has resolved: a response that is not ok is thrown on; otherwise
    the empty assistant message is appended and the body, if there is one,
    is read. *)
Definition sendMessage_response (ok has_body : bool) (p : Page) : Page * Progress :=
  if negb ok then (sendMessage_catch p, settled)
  else
    let assistantMessage := {| role := assistant; content := ""; timestamp := None |} in
    (setIsLoading false (setMessages (fun prev => prev ++ [assistantMessage]) p),
     if has_body then reading "" else settled).

(** One turn of the loop with a chunk: [text] is what the decoder makes of
    it. *)
Definition sendMessage_chunk (accumulatedContent text : string) (p : Page)
    : Page * Progress :=
  let accumulatedContent := accumulatedContent +:+ text in
  (setMessages (update_last_assistant (set_content accumulatedContent)) p,
   reading accumulatedContent).

(** The body has ended. *)
Definition sendMessage_done (now : string) (p : Page) : Page :=
  setMessages (update_last_assistant (set_timestamp now)) p.

Inductive Event :=
| Typed (text : string)
| Select (sym : string)
| Send (now : string)
| NewChat (millis now : string)
| Switch (sessionId : string)
| Responded (c : nat) (ok has_body : bool)
| Rejected (c : nat)
| Chunk (c : nat) (text : string)
| Done (c : nat) (now : string).

Definition resume (c : nat) (r : Page * Progress) : Page :=
  set_calls (alter (set_progress (snd r)) c (calls (fst r))) (fst r).

(** One event. [None]: the event cannot happen in this state (a call
    resumes only from the wait it is in). *)
Definition step (e : Event) (p : Page) : option Page :=
  match e with
  | Typed text => Some (setInput text p)
  | Select sym => Some (setSelectedSymbol sym p)
  | Send now => Some (sendMessage now p)
  | NewChat millis now => Some (createNewChat millis now p)
  | Switch sessionId => Some (switchSession sessionId p)
  | Responded c ok has_body =>
      match progress <$> calls p !! c with
      | Some awaiting_response => Some (resume c (sendMessage_response ok has_body p))
      | _ => None
      end
  | Rejected c =>
      match progress <$> calls p !! c with
      | Some awaiting_response | Some (reading _) =>
          Some (resume c (sendMessage_catch p, settled))
      | _ => None
      end
  | Chunk c text =>
      match progress <$> calls p !! c with
      | Some (reading accumulatedContent) =>
          Some (resume c (sendMessage_chunk accumulatedContent text p))
      | _ => None
      end
  | Done c now =>
      match progress <$> calls p !! c with
      | Some (reading _) => Some (resume c (sendMessage_done now p, settled))
      | _ => None
      end
  end.

Fixpoint run (es : list Event) (p : Page) : option Page :=
  match es with
  | [] => Some p
  | e :: es' =>
      match step e p with
      | Some p' => run es' p'
      | None => None
      end
  end.

End SendMessage.

(** The chunks of a body, put together. *)
Definition join (chunks : list string) : string := foldr String.append "" chunks.

(** Events that start or switch a chat, which empty the message list. *)
Definition clears_messages (e : Event) : bool :=
  match e with
  | NewChat _ _ | Switch _ => true
  | _ => false
  end.

End Chat.

(** Trimming of the ASCII white space (tab, line feed, vertical tab, form
    feed, carriage return, space), for running the chat page. *)
Definition is_ascii_space (c : ascii) : bool :=
  let n := nat_of_ascii c in
  ((9 <=? n) && (n <=? 13)) || (n =? 32).

Fixpoint trim_start (s : string) : string :=
  match s with
  | String c s' => if is_ascii_space c then trim_start s' else s
  | EmptyString => EmptyString
  end.

Fixpoint trim_end (s : string) : string :=
  match s with
  | String c s' =>
      match trim_end s' with
      | EmptyString => if is_ascii_space c then EmptyString else String c EmptyString
      | rest => String c rest
      end
  | EmptyString => EmptyString
  end.

Definition ascii_trim : Trim := fun s => trim_end (trim_start s).

(** ** Sample pages *)

(** The chat page with a question typed into its input. *)
Definition asking : Chat.Page :=
  Chat.setInput "Should I buy BTC now?" (Chat.initial "2024-05-01T10:00:00.000Z").

(** ... and sent. *)
Definition asked : Chat.Page :=
  Eval vm_compute in @Chat.sendMessage ascii_trim "2024-05-01T10:00:05.000Z" asking.

(** * Properties *)

(** ** Strings *)

Lemma append_cons (c : ascii) (a b : string) :
  String c a +:+ b = String c (a +:+ b).
Proof. reflexivity. Qed.

Lemma length_append (a b : string) :
  String.length (a +:+ b) = String.length a + String.length b.
Proof. induction a as [|c a IH]; simpl; [reflexivity | now rewrite IH]. Qed.

Lemma substring_all (b : string) : String.substring 0 (String.length b) b = b.
Proof. induction b as [|c b IH]; simpl; [reflexivity | now rewrite IH]. Qed.

Lemma substring_skip (a b : string) (m : nat) :
  String.substring (String.length a) m (a +:+ b) = String.substring 0 m b.
Proof. induction a as [|c a IH]; simpl; [reflexivity | exact IH]. Qed.

Lemma substring_split (s : string) (k : nat) :
  k <= String.length s ->
  s = String.substring 0 k s +:+ String.substring k (String.length s - k) s.
Proof.
  revert k. induction s as [|c s IH]; intros k Hk; simpl in *.
  - destruct k; [reflexivity | lia].
  - destruct k as [|k]; simpl.
    + now rewrite substring_all.
    + rewrite append_cons. f_equal. apply IH. lia.
Qed.

(** [endsWith] is what its name says. *)
Lemma endsWith_spec (s suffix : string) :
  endsWith s suffix = true <-> exists p, s = p +:+ suffix.
Proof.
  unfold endsWith. split.
  - intros Hs. apply andb_prop in Hs as [Hle Heq].
    apply Nat.leb_le in Hle. apply String.eqb_eq in Heq.
    exists (String.substring 0 (String.length s - String.length suffix) s).
    pose proof (substring_split s (String.length s - String.length suffix)) as Hsplit.
    replace (String.length s - (String.length s - String.length suffix))
      with (String.length suffix) in Hsplit by lia.
    rewrite Heq in Hsplit. apply Hsplit. lia.
  - intros [p ->]. rewrite length_append.
    apply andb_true_intro. split; [apply Nat.leb_le; lia |].
    replace (String.length p + String.length suffix - String.length suffix)
      with (String.length p) by lia.
    rewrite substring_skip, substring_all. apply String.eqb_refl.
Qed.

Lemma append_assoc (a b c : string) : (a +:+ b) +:+ c = a +:+ b +:+ c.
Proof.
  induction a as [|x a IH]; [reflexivity |].
  rewrite !append_cons. now rewrite IH.
Qed.

(** ** Unfolding callbacks *)

#[local] Arguments Nat.ltb : simpl never.
#[local] Arguments Nat.leb : simpl never.
#[local] Arguments MAX_RECONNECT_ATTEMPTS : simpl never.

Ltac js_unfold :=
  unfold run_callback, escapes, try_catch, prop, JSON_parse, update, read, throw,
    mbind, JS_bind, mret, JS_ret in *.

Ltac hook_simpl :=
  cbn [state wsRef reconnectTimeoutRef reconnectAttemptsRef mountedRef symbol
       sockets timers data isConnected isLoading error lastUpdate
       with_state setData setIsConnected setIsLoading setError setLastUpdate
       set_wsRef set_reconnectTimeoutRef set_reconnectAttemptsRef
       set_mountedRef set_symbol set_sockets set_timers andb orb negb id] in *.

Ltac hook_cases h :=
  destruct h as [[? ? ? ? ?] ? ? ? ? ? ? ?].

Section Properties.
Context `{Platform}.

(** *** [connect] *)

Lemma connect_unmounted (sym : string) (h : Hook) :
  mountedRef h = false -> connect sym h = Normal tt h.
Proof. intros Hm. unfold connect. js_unfold. now rewrite Hm. Qed.

Lemma connect_accepted (sym : string) (h : Hook) :
  mountedRef h = true ->
  WebSocket_rejects (wsUrl sym) = false ->
  connect sym h =
    Normal tt
      (set_wsRef (Some (length (sockets h)))
         (set_sockets
            (sockets h ++
               [{| url := wsUrl sym; readyState := CONNECTING; closure_symbol := sym |}])
            h)).
Proof.
  intros Hm Hok. unfold connect, new_WebSocket. js_unfold.
  now rewrite Hm, Hok.
Qed.

Lemma connect_rejected (sym : string) (h : Hook) :
  mountedRef h = true ->
  WebSocket_rejects (wsUrl sym) = true ->
  connect sym h =
    Normal tt
      (setIsLoading false
         (setError (str "Failed to establish WebSocket connection") h)).
Proof.
  intros Hm Hno. unfold connect, new_WebSocket. js_unfold.
  now rewrite Hm, Hno.
Qed.

(** The URL a symbol is connected to. *)
Lemma wsUrl_tail (sym : string) :
  wsUrl sym =
    (WS_URL +:+ "/api/v1/market/radar/ws/") +:+
      (if endsWith (toUpperCase sym) "USDT" then sym else sym +:+ "USDT").
Proof. unfold wsUrl, normalizedSymbol. now rewrite append_assoc. Qed.

(** C10: for every symbol, the URL the hook connects to ends with the
    symbol itself when the upper-cased symbol ends with USDT, and with the
    symbol as given (case kept) followed by USDT otherwise; that URL is the
    one of the socket [connect] makes on a mounted hook. *)
Theorem connect_url_suffix (sym : string) :
  (endsWith (toUpperCase sym) "USDT" = true ->
     wsUrl sym = WS_URL +:+ "/api/v1/market/radar/ws/" +:+ sym /\
     endsWith (wsUrl sym) ("/" +:+ sym) = true) /\
  (endsWith (toUpperCase sym) "USDT" = false ->
     wsUrl sym = WS_URL +:+ "/api/v1/market/radar/ws/" +:+ sym +:+ "USDT" /\
     endsWith (wsUrl sym) ("/" +:+ sym +:+ "USDT") = true) /\
  (forall h,
      mountedRef h = true ->
      WebSocket_rejects (wsUrl sym) = false ->
      sockets (run_callback (connect sym) h) =
        sockets h ++
          [{| url := wsUrl sym; readyState := CONNECTING; closure_symbol := sym |}]).
Proof.
  split; [| split].
  - unfold wsUrl, normalizedSymbol. intros ->. split; [reflexivity |].
    apply endsWith_spec.
    exists (WS_URL +:+ "/api/v1/market/radar/ws"). now rewrite append_assoc.
  - unfold wsUrl, normalizedSymbol. intros ->. split; [reflexivity |].
    apply endsWith_spec.
    exists (WS_URL +:+ "/api/v1/market/radar/ws"). now rewrite append_assoc.
  - intros h Hm Hok. unfold run_callback. now rewrite connect_accepted.
Qed.

(** *** [onmessage] *)

Lemma get_property_object (v : Value) (f g : Field) (x : Value) :
  get_property v f = Some x -> get_property v g = Some (member v g).
Proof.
  unfold member, get_property. destruct v as [|[]]; intros Hx; try discriminate; reflexivity.
Qed.

Lemma has_data_readable (message : JSON) (f : Field) :
  has_data message = true ->
  get_property (json message) f_data = Some (member (json message) f_data) /\
  get_property (member (json message) f_data) f
    = Some (member (member (json message) f_data) f).
Proof.
  unfold has_data, member.
  destruct (get_property (json message) f_data) as [[|[]]|] eqn:Hd;
    intros Hh; try discriminate; split; reflexivity.
Qed.

(** The handler catches everything its body throws. *)
Lemma onmessage_never_throws (event_data : MessageData) (h : Hook) :
  escapes (onmessage event_data) h = false.
Proof.
  unfold onmessage, onmessage_try. js_unfold. destruct event_data as [|m]; simpl; [reflexivity |].
  destruct (get_property (json m) f_type) as [ty|]; [|reflexivity].
  destruct (strict_equals_string ty "market_radar_update").
  - destruct (get_property (json m) f_data) as [d|]; [|reflexivity].
    destruct (get_property d f_snapshot); [|reflexivity].
    destruct (get_property d f_anomalies); [|reflexivity].
    destruct (get_property d f_tempo); [|reflexivity].
    destruct (get_property d f_timeline); [|reflexivity].
    destruct (get_property (json m) f_timestamp); reflexivity.
  - destruct (strict_equals_string ty "error"); [|reflexivity].
    destruct (get_property (json m) f_message); reflexivity.
Qed.

Lemma onmessage_not_json (h : Hook) :
  run_callback (onmessage not_json) h = h.
Proof. reflexivity. Qed.

(** An update frame overwrites [data], [lastUpdate] and [error]. *)
Lemma onmessage_update (message : JSON) (h : Hook) :
  has_type message "market_radar_update" = true ->
  has_data message = true ->
  run_callback (onmessage (json_text message)) h =
    setError null
      (setLastUpdate (member (json message) f_timestamp)
         (setData
            {| snapshot := member (member (json message) f_data) f_snapshot;
               anomalies := member (member (json message) f_data) f_anomalies;
               tempo := member (member (json message) f_data) f_tempo;
               timeline := member (member (json message) f_data) f_timeline |}
            h)).
Proof.
  intros Hty Hd.
  destruct (has_data_readable message f_snapshot Hd) as [Hdata Hsn].
  destruct (has_data_readable message f_anomalies Hd) as [_ Han].
  destruct (has_data_readable message f_tempo Hd) as [_ Hte].
  destruct (has_data_readable message f_timeline Hd) as [_ Hti].
  pose proof (get_property_object _ _ f_timestamp _ Hdata) as Hts.
  unfold has_type in Hty.
  destruct (get_property (json message) f_type) as [ty|] eqn:Htype; [|discriminate].
  unfold onmessage, onmessage_try. js_unfold. simpl.
  rewrite Htype, Hty, Hdata, Hsn, Han, Hte, Hti, Hts. reflexivity.
Qed.

(** An update frame without readable [data] throws inside the handler,
    before anything is written. *)
Lemma onmessage_update_without_data (message : JSON) (h : Hook) :
  has_type message "market_radar_update" = true ->
  has_data message = false ->
  run_callback (onmessage (json_text message)) h = h.
Proof.
  unfold has_type, has_data. intros Hty Hd.
  destruct (get_property (json message) f_type) as [ty|] eqn:Htype; [|discriminate].
  unfold onmessage, onmessage_try. js_unfold. simpl. rewrite Htype, Hty.
  destruct (get_property (json message) f_data) as [[|[]]|]; try discriminate;
    reflexivity.
Qed.

(** For a frame of type market_radar_update, the [try] block completes
    exactly when [data] can be read. *)
Lemma update_parsed_iff (message : JSON) (h : Hook) :
  has_type message "market_radar_update" = true ->
  escapes (onmessage_try (json_text message)) h = false <-> has_data message = true.
Proof.
  unfold has_type. intros Hty.
  destruct (get_property (json message) f_type) as [ty|] eqn:Htype; [|discriminate].
  split.
  - unfold has_data, onmessage_try. js_unfold. simpl. rewrite Htype, Hty.
    destruct (get_property (json message) f_data) as [[|[]]|]; try discriminate;
      reflexivity.
  - intros Hd.
    destruct (has_data_readable message f_snapshot Hd) as [Hdata Hsn].
    destruct (has_data_readable message f_anomalies Hd) as [_ Han].
    destruct (has_data_readable message f_tempo Hd) as [_ Hte].
    destruct (has_data_readable message f_timeline Hd) as [_ Hti].
    pose proof (get_property_object _ _ f_timestamp _ Hdata) as Hts.
    unfold onmessage_try. js_unfold. simpl.
    rewrite Htype, Hty, Hdata, Hsn, Han, Hte, Hti, Hts. reflexivity.
Qed.

Lemma onmessage_error (message : JSON) (h : Hook) :
  has_type message "market_radar_update" = false ->
  has_type message "error" = true ->
  run_callback (onmessage (json_text message)) h =
    setError (member (json message) f_message) h.
Proof.
  unfold has_type. intros Hup Her.
  destruct (get_property (json message) f_type) as [ty|] eqn:Htype; [|discriminate].
  pose proof (get_property_object _ _ f_message _ Htype) as Hm.
  unfold onmessage, onmessage_try. js_unfold. simpl. rewrite Htype, Hup, Her, Hm. reflexivity.
Qed.

Lemma onmessage_other (message : JSON) (h : Hook) :
  has_type message "market_radar_update" = false ->
  has_type message "error" = false ->
  run_callback (onmessage (json_text message)) h = h.
Proof.
  unfold has_type. intros Hup Her.
  unfold onmessage, onmessage_try. js_unfold. simpl.
  destruct (get_property (json message) f_type) as [ty|] eqn:Htype; [|reflexivity].
  rewrite Hup, Her. reflexivity.
Qed.

Lemma has_type_exclusive (message : JSON) :
  has_type message "error" = true -> has_type message "market_radar_update" = false.
Proof.
  unfold has_type, strict_equals_string.
  destruct (get_property (json message) f_type) as [[|[]]|]; try discriminate.
  intros He%String.eqb_eq. now subst.
Qed.

(** *** The other callbacks, in closed form *)

Lemma onopen_eq (h : Hook) :
  run_callback onopen h =
    set_reconnectAttemptsRef 0
      (setError null (setIsLoading false (setIsConnected true h))).
Proof. reflexivity. Qed.

Lemma onerror_eq (h : Hook) :
  run_callback onerror h = setError (str "WebSocket connection error") h.
Proof. reflexivity. Qed.

Lemma onclose_retry (sym : string) (h : Hook) :
  mountedRef h = true ->
  reconnectAttemptsRef h < MAX_RECONNECT_ATTEMPTS ->
  run_callback (onclose sym) h =
    set_reconnectTimeoutRef (Some (length (timers h)))
      (set_timers (timers h ++ [Some sym])
         (set_reconnectAttemptsRef (S (reconnectAttemptsRef h))
            (set_wsRef None (setIsConnected false h)))).
Proof.
  intros Hm Hlt. apply Nat.ltb_lt in Hlt.
  unfold onclose, setTimeout. js_unfold. hook_simpl. now rewrite Hm, Hlt.
Qed.

Lemma onclose_exhausted (sym : string) (h : Hook) :
  MAX_RECONNECT_ATTEMPTS <= reconnectAttemptsRef h ->
  run_callback (onclose sym) h =
    setIsLoading false
      (setError (str "Failed to connect after multiple attempts. Please refresh the page.")
         (set_wsRef None (setIsConnected false h))).
Proof.
  intros Hge. unfold onclose. js_unfold. hook_simpl.
  replace (reconnectAttemptsRef h <? MAX_RECONNECT_ATTEMPTS) with false
    by (symmetry; apply Nat.ltb_ge; exact Hge).
  rewrite andb_false_r. hook_simpl.
  apply Nat.leb_le in Hge. now rewrite Hge.
Qed.

Lemma onclose_unmounted (sym : string) (h : Hook) :
  mountedRef h = false ->
  reconnectAttemptsRef h < MAX_RECONNECT_ATTEMPTS ->
  run_callback (onclose sym) h = set_wsRef None (setIsConnected false h).
Proof.
  intros Hm Hlt. unfold onclose. js_unfold. hook_simpl. rewrite Hm. hook_simpl.
  replace (MAX_RECONNECT_ATTEMPTS <=? reconnectAttemptsRef h) with false
    by (symmetry; apply Nat.leb_gt; exact Hlt).
  reflexivity.
Qed.

Lemma cleanup_eq (h : Hook) :
  run_callback cleanup h =
    {| state := state h;
       wsRef := None;
       reconnectTimeoutRef := reconnectTimeoutRef h;
       reconnectAttemptsRef := reconnectAttemptsRef h;
       mountedRef := false;
       symbol := symbol h;
       sockets := match wsRef h with
                  | Some i => alter closing i (sockets h)
                  | None => sockets h
                  end;
       timers := match reconnectTimeoutRef h with
                 | Some t => alter (fun _ => None) t (timers h)
                 | None => timers h
                 end |}.
Proof.
  hook_cases h. unfold cleanup, WebSocket_close, clearTimeout. js_unfold. simpl.
  destruct reconnectTimeoutRef0, wsRef0; reflexivity.
Qed.

(** What each callback does to the cells the hook returns. *)
Lemma connect_state (sym : string) (h : Hook) :
  state (run_callback (connect sym) h) = state h \/
  state (run_callback (connect sym) h) =
    state (setIsLoading false
             (setError (str "Failed to establish WebSocket connection") h)).
Proof.
  destruct (mountedRef h) eqn:Hm.
  - destruct (WebSocket_rejects (wsUrl sym)) eqn:Hr.
    + right. unfold run_callback. now rewrite connect_rejected.
    + left. unfold run_callback. now rewrite connect_accepted.
  - left. unfold run_callback. now rewrite connect_unmounted.
Qed.

Lemma onclose_cases (sym : string) (h : Hook) :
  (mountedRef h = true /\ reconnectAttemptsRef h < MAX_RECONNECT_ATTEMPTS) \/
  MAX_RECONNECT_ATTEMPTS <= reconnectAttemptsRef h \/
  (mountedRef h = false /\ reconnectAttemptsRef h < MAX_RECONNECT_ATTEMPTS).
Proof. destruct (mountedRef h); lia. Qed.

Lemma effect_eq (sym : string) (h : Hook) :
  run_callback (effect sym) h = run_callback (connect sym) (set_mountedRef true h).
Proof. reflexivity. Qed.

Lemma rebind_eq (sym : string) (h : Hook) :
  run_callback (cleanup ;; update (set_symbol sym) ;; effect sym) h =
    run_callback (effect sym) (set_symbol sym (run_callback cleanup h)).
Proof.
  rewrite cleanup_eq. hook_cases h.
  unfold cleanup, WebSocket_close, clearTimeout. js_unfold. hook_simpl.
  destruct reconnectTimeoutRef0, wsRef0; reflexivity.
Qed.

(** *** Events *)

Lemma step_WsOpen (ws : nat) (h h' : Hook) :
  step (WsOpen ws) h = Some h' ->
  exists w, sockets h !! ws = Some w /\ readyState w = CONNECTING /\
    h' = run_callback onopen
           (set_sockets (alter (set_readyState OPEN) ws (sockets h)) h).
Proof.
  simpl. destruct (sockets h !! ws) as [w|]; [|discriminate].
  destruct (decide (readyState w = CONNECTING)); [|discriminate].
  intros [= <-]. eauto.
Qed.

Lemma step_WsMessage (ws : nat) (event_data : MessageData) (h h' : Hook) :
  step (WsMessage ws event_data) h = Some h' ->
  exists w, sockets h !! ws = Some w /\ readyState w = OPEN /\
    h' = run_callback (onmessage event_data) h.
Proof.
  simpl. destruct (sockets h !! ws) as [w|]; [|discriminate].
  destruct (decide (readyState w = OPEN)); [|discriminate].
  intros [= <-]. eauto.
Qed.

Lemma dispatch_close_eq (failed : bool) (ws : nat) (h h' : Hook) :
  dispatch_close failed ws h = Some h' ->
  exists w, sockets h !! ws = Some w /\ readyState w <> CLOSED /\
    h' = run_callback (onclose (closure_symbol w))
           ((if failed then setError (str "WebSocket connection error") else id)
              (set_sockets (alter (set_readyState CLOSED) ws (sockets h)) h)).
Proof.
  unfold dispatch_close. destruct (sockets h !! ws) as [w|]; [|discriminate].
  destruct (decide (readyState w = CLOSED)); [discriminate|].
  intros [= <-]. exists w. destruct failed; auto.
Qed.

Lemma step_TimerFire (t : nat) (h h' : Hook) :
  step (TimerFire t) h = Some h' ->
  exists sym, timers h !! t = Some (Some sym) /\
    h' = run_callback (connect sym)
           (set_timers (alter (fun _ => None) t (timers h)) h).
Proof.
  simpl. destruct (timers h !! t) as [[sym|]|]; try discriminate.
  intros [= <-]. eauto.
Qed.

Lemma step_SymbolChange (sym : string) (h h' : Hook) :
  step (SymbolChange sym) h = Some h' ->
  mountedRef h = true /\
  (sym = symbol h /\ h' = h \/
   sym <> symbol h /\
   h' = run_callback (effect sym) (set_symbol sym (run_callback cleanup h))).
Proof.
  simpl. destruct (mountedRef h); [|discriminate]. intros Hstep.
  split; [reflexivity|]. revert Hstep.
  destruct (String.eqb_spec sym (symbol h)) as [->|Hne]; intros [= <-].
  - now left.
  - right. split; [assumption|]. apply rebind_eq.
Qed.

Lemma step_Unmount (h h' : Hook) :
  step Unmount h = Some h' -> mountedRef h = true /\ h' = run_callback cleanup h.
Proof. simpl. destruct (mountedRef h); [|discriminate]. now intros [= <-]. Qed.

(** Forwards: an event that can happen, and what it runs. *)

Lemma SymbolChange_runs (sym : string) (h : Hook) :
  mountedRef h = true -> sym <> symbol h ->
  step (SymbolChange sym) h =
    Some (run_callback (connect sym)
            (set_mountedRef true (set_symbol sym (run_callback cleanup h)))).
Proof.
  intros Hm Hne. simpl. rewrite Hm.
  destruct (String.eqb_spec sym (symbol h)) as [Heq | _]; [contradiction |].
  now rewrite rebind_eq, effect_eq.
Qed.

Lemma close_runs (failed : bool) (ws : nat) (w : WebSocket) (h : Hook) :
  sockets h !! ws = Some w -> readyState w <> CLOSED ->
  dispatch_close failed ws h =
    Some (run_callback (onclose (closure_symbol w))
            ((if failed then setError (str "WebSocket connection error") else id)
               (set_sockets (alter (set_readyState CLOSED) ws (sockets h)) h))).
Proof.
  intros Hw Hopen. unfold dispatch_close. rewrite Hw.
  destruct (decide (readyState w = CLOSED)); [contradiction |]. now destruct failed.
Qed.

Lemma TimerFire_runs (t : nat) (sym : string) (h : Hook) :
  timers h !! t = Some (Some sym) ->
  step (TimerFire t) h =
    Some (run_callback (connect sym)
            (set_timers (alter (fun _ => None) t (timers h)) h)).
Proof. intros Hp. simpl. now rewrite Hp. Qed.

Lemma open_runs (ws : nat) (w : WebSocket) (h : Hook) :
  sockets h !! ws = Some w -> readyState w = CONNECTING ->
  step (WsOpen ws) h =
    Some (run_callback onopen
            (set_sockets (alter (set_readyState OPEN) ws (sockets h)) h)).
Proof.
  intros Hw Hc. simpl. rewrite Hw.
  destruct (decide (readyState w = CONNECTING)); [reflexivity | contradiction].
Qed.

Lemma message_runs (ws : nat) (w : WebSocket) (event_data : MessageData) (h : Hook) :
  sockets h !! ws = Some w -> readyState w = OPEN ->
  step (WsMessage ws event_data) h = Some (run_callback (onmessage event_data) h).
Proof.
  intros Hw Ho. simpl. rewrite Hw.
  destruct (decide (readyState w = OPEN)); [reflexivity | contradiction].
Qed.

(** *** What the callbacks leave alone *)

Lemma connect_data (sym : string) (h : Hook) :
  data (state (run_callback (connect sym) h)) = data (state h).
Proof. destruct (connect_state sym h) as [-> | ->]; reflexivity. Qed.

Lemma connect_isLoading (sym : string) (h : Hook) :
  isLoading (state h) = false ->
  isLoading (state (run_callback (connect sym) h)) = false.
Proof.
  intros Hl. destruct (connect_state sym h) as [-> | ->]; [exact Hl | reflexivity].
Qed.

Lemma onclose_data (sym : string) (h : Hook) :
  data (state (run_callback (onclose sym) h)) = data (state h).
Proof.
  destruct (onclose_cases sym h) as [[Hm Hlt] | [Hge | [Hm Hlt]]].
  - now rewrite onclose_retry.
  - now rewrite onclose_exhausted.
  - now rewrite onclose_unmounted.
Qed.

Lemma onclose_isLoading (sym : string) (h : Hook) :
  isLoading (state h) = false ->
  isLoading (state (run_callback (onclose sym) h)) = false.
Proof.
  intros Hl. destruct (onclose_cases sym h) as [[Hm Hlt] | [Hge | [Hm Hlt]]].
  - now rewrite onclose_retry.
  - now rewrite onclose_exhausted.
  - now rewrite onclose_unmounted.
Qed.

Lemma cleanup_state (h : Hook) : state (run_callback cleanup h) = state h.
Proof. now rewrite cleanup_eq. Qed.

Lemma onmessage_dropped (event_data : MessageData) (h : Hook) :
  dropped event_data = true -> run_callback (onmessage event_data) h = h.
Proof.
  destruct event_data as [|m]; simpl; [reflexivity |].
  destruct (has_type m "market_radar_update") eqn:Hup.
  - intros Hd%negb_true_iff. now apply onmessage_update_without_data.
  - intros He%negb_true_iff. now apply onmessage_other.
Qed.

Lemma onmessage_data (event_data : MessageData) (h : Hook) :
  is_update_event (WsMessage 0 event_data) = false ->
  data (state (run_callback (onmessage event_data) h)) = data (state h).
Proof.
  destruct event_data as [|m]; simpl; [reflexivity |].
  destruct (has_type m "market_radar_update") eqn:Hup; simpl.
  - intros Hd. now rewrite onmessage_update_without_data.
  - intros _. destruct (has_type m "error") eqn:Her.
    + now rewrite onmessage_error.
    + now rewrite onmessage_other.
Qed.

Lemma onmessage_isLoading (event_data : MessageData) (h : Hook) :
  isLoading (state (run_callback (onmessage event_data) h)) = isLoading (state h).
Proof.
  destruct event_data as [|m]; [reflexivity |].
  destruct (has_type m "market_radar_update") eqn:Hup.
  - destruct (has_data m) eqn:Hd.
    + now rewrite onmessage_update.
    + now rewrite onmessage_update_without_data.
  - destruct (has_type m "error") eqn:Her.
    + now rewrite onmessage_error.
    + now rewrite onmessage_other.
Qed.

(** Only an update frame changes the held data. *)
Lemma step_data (e : Event) (h h' : Hook) :
  is_update_event e = false ->
  step e h = Some h' ->
  data (state h') = data (state h).
Proof.
  intros Hne Hstep. destruct e as [sym| |ws|ws d|ws|ws|t].
  - apply step_SymbolChange in Hstep as [_ [[_ ->] | [_ ->]]]; [reflexivity |].
    rewrite effect_eq, connect_data. hook_simpl. now rewrite cleanup_state.
  - apply step_Unmount in Hstep as [_ ->]. now rewrite cleanup_state.
  - apply step_WsOpen in Hstep as (w & _ & _ & ->). reflexivity.
  - apply step_WsMessage in Hstep as (w & _ & _ & ->).
    apply onmessage_data. destruct d; exact Hne.
  - apply dispatch_close_eq in Hstep as (w & _ & _ & ->). now rewrite onclose_data.
  - apply dispatch_close_eq in Hstep as (w & _ & _ & ->). now rewrite onclose_data.
  - apply step_TimerFire in Hstep as (sym & _ & ->). now rewrite connect_data.
Qed.

(** [isLoading] is never set back to [true]. *)
Lemma step_isLoading (e : Event) (h h' : Hook) :
  step e h = Some h' ->
  isLoading (state h) = false ->
  isLoading (state h') = false.
Proof.
  intros Hstep Hl. destruct e as [sym| |ws|ws d|ws|ws|t].
  - apply step_SymbolChange in Hstep as [_ [[_ ->] | [_ ->]]]; [assumption |].
    rewrite effect_eq. apply connect_isLoading. hook_simpl. now rewrite cleanup_state.
  - apply step_Unmount in Hstep as [_ ->]. now rewrite cleanup_state.
  - apply step_WsOpen in Hstep as (w & _ & _ & ->). reflexivity.
  - apply step_WsMessage in Hstep as (w & _ & _ & ->). now rewrite onmessage_isLoading.
  - apply dispatch_close_eq in Hstep as (w & _ & _ & ->). now apply onclose_isLoading.
  - apply dispatch_close_eq in Hstep as (w & _ & _ & ->). now apply onclose_isLoading.
  - apply step_TimerFire in Hstep as (sym & _ & ->). now apply connect_isLoading.
Qed.

(** ** Frames *)

(** C1, as amended: an update frame (one whose data can be read) is
    substituted for the held data, not merged into it: after it, each of the
    four facets is exactly what the frame carries for that facet, null
    included, so a facet that was non-null stays non-null only when the
    frame's own value for it is non-null.  No other event (error frames,
    dropped frames, opens, closes, timers, a change of symbol, unmounting)
    changes the held data. *)
Theorem update_replaces_facets :
  (forall ws message h h',
      has_type message "market_radar_update" = true ->
      has_data message = true ->
      step (WsMessage ws (json_text message)) h = Some h' ->
      data (state h') =
        {| snapshot := member (member (json message) f_data) f_snapshot;
           anomalies := member (member (json message) f_data) f_anomalies;
           tempo := member (member (json message) f_data) f_tempo;
           timeline := member (member (json message) f_data) f_timeline |}) /\
  (forall e h h',
      is_update_event e = false ->
      step e h = Some h' ->
      data (state h') = data (state h)).
Proof.
  split.
  - intros ws message h h' Hty Hd Hstep.
    apply step_WsMessage in Hstep as (w & _ & _ & ->).
    now rewrite onmessage_update.
  - exact step_data.
Qed.

(** C8, as amended: the message handler never lets an exception out, and it
    leaves every cell untouched on a frame that is not JSON, on a value whose
    type is neither of the two literals (or is unreadable), and on an update
    whose data is missing or null.  The shape of a frame of either type is
    not checked any further. *)
Theorem dropped_frame_changes_nothing (event_data : MessageData) (h : Hook) :
  escapes (onmessage event_data) h = false /\
  (dropped event_data = true ->
     run_callback (onmessage event_data) h = h /\
     forall ws h', step (WsMessage ws event_data) h = Some h' -> h' = h).
Proof.
  split; [apply onmessage_never_throws |].
  intros Hd. split; [now apply onmessage_dropped |].
  intros ws h' Hstep. apply step_WsMessage in Hstep as (w & _ & _ & ->).
  now apply onmessage_dropped.
Qed.

(** The frames above are the only ones without effect: any other frame
    changes what the hook returns, from a suitable state. *)
Lemma kept_frame_changes_something (event_data : MessageData) :
  dropped event_data = false ->
  exists h, state (run_callback (onmessage event_data) h) <> state h.
Proof.
  destruct event_data as [|m]; simpl; [discriminate |].
  destruct (has_type m "market_radar_update") eqn:Hup.
  - intros Hd%negb_false_iff.
    exists (setError (str "stale") (initial "")).
    rewrite onmessage_update by assumption. discriminate.
  - intros He%negb_false_iff.
    destruct (member (json m) f_message) as [|j] eqn:Hm.
    + exists (initial ""). rewrite onmessage_error by assumption.
      rewrite Hm. discriminate.
    + destruct j; [exists (setError undefined (initial "")) | exists (initial "") ..];
        rewrite onmessage_error by assumption; rewrite Hm; discriminate.
Qed.

(** C9, as amended: a frame of type market_radar_update whose data can be
    read (is neither missing nor null) sets error to null, whatever error was
    shown before, and leaves the socket and isConnected as they are: a
    server-reported error is cleared by the next such update on the same open
    connection, without a new open.  An update whose data is missing or null
    is parsed by JSON.parse all the same, but the handler throws on it before
    it gets to the error: every cell, the error among them, stays as it
    was. *)
Theorem update_clears_error (ws : nat) (w : WebSocket) (message : JSON) (h : Hook) :
  sockets h !! ws = Some w ->
  readyState w = OPEN ->
  has_type message "market_radar_update" = true ->
  JSON_parse (json_text message) h = Normal (json message) h /\
  exists h',
    step (WsMessage ws (json_text message)) h = Some h' /\
    (has_data message = true ->
       error (state h') = null /\
       sockets h' = sockets h /\
       isConnected (state h') = isConnected (state h)) /\
    (has_data message = false -> h' = h).
Proof.
  intros Hw Ho Hty. split; [reflexivity |].
  exists (run_callback (onmessage (json_text message)) h).
  split; [now apply (message_runs ws w) |]. split.
  - intros Hd. now rewrite onmessage_update.
  - intros Hd. now apply onmessage_update_without_data.
Qed.

(** C7, as amended: when a frame of type error arrives on an open socket,
    error is set to the frame's message member as it is: to the message when
    the frame has one, and to undefined when it has none.  When a socket
    closes while the attempt counter is at the maximum, error is set to the
    give-up text.  When a connecting socket opens, error is set to null. *)
Theorem error_set_and_cleared :
  (forall ws w message h,
      sockets h !! ws = Some w ->
      readyState w = OPEN ->
      has_type message "error" = true ->
      exists h',
        step (WsMessage ws (json_text message)) h = Some h' /\
        error (state h') = member (json message) f_message) /\
  (forall failed ws w h,
      sockets h !! ws = Some w ->
      readyState w <> CLOSED ->
      MAX_RECONNECT_ATTEMPTS <= reconnectAttemptsRef h ->
      exists h',
        dispatch_close failed ws h = Some h' /\
        error (state h') =
          str "Failed to connect after multiple attempts. Please refresh the page.") /\
  (forall ws w h,
      sockets h !! ws = Some w ->
      readyState w = CONNECTING ->
      exists h',
        step (WsOpen ws) h = Some h' /\
        error (state h') = null).
Proof.
  split; [| split].
  - intros ws w message h Hw Ho Hty.
    exists (run_callback (onmessage (json_text message)) h).
    split; [now apply (message_runs ws w) |].
    rewrite onmessage_error; [reflexivity | now apply has_type_exclusive | assumption].
  - intros failed ws w h Hw Hno Hge. eexists.
    split; [now apply (close_runs failed ws w) |].
    rewrite onclose_exhausted; [reflexivity | now destruct failed].
  - intros ws w h Hw Hc. eexists. split; [now apply (open_runs ws w) |]. reflexivity.
Qed.

(** ** One subscription *)

Lemma onmessage_refs (event_data : MessageData) (h : Hook) :
  exists r, run_callback (onmessage event_data) h = with_state (fun _ => r) h.
Proof.
  destruct event_data as [|m].
  - exists (state h). now destruct h.
  - destruct (has_type m "market_radar_update") eqn:Hup.
    + destruct (has_data m) eqn:Hd.
      * rewrite onmessage_update by assumption. eexists. reflexivity.
      * rewrite onmessage_update_without_data by assumption.
        exists (state h). now destruct h.
    + destruct (has_type m "error") eqn:Her.
      * rewrite onmessage_error by assumption. eexists. reflexivity.
      * rewrite onmessage_other by assumption. exists (state h). now destruct h.
Qed.

Lemma quiescent (e : Event) (h : Hook) :
  all_closed h -> no_timer_pending h ->
  is_transport_event e = true -> step e h = None.
Proof.
  intros Hs Ht He. destruct e as [sym| |ws|ws d|ws|ws|t]; try discriminate; simpl.
  - destruct (sockets h !! ws) as [w|] eqn:Hw; [|reflexivity].
    rewrite (Hs _ _ Hw). reflexivity.
  - destruct (sockets h !! ws) as [w|] eqn:Hw; [|reflexivity].
    rewrite (Hs _ _ Hw). reflexivity.
  - unfold dispatch_close. destruct (sockets h !! ws) as [w|] eqn:Hw; [|reflexivity].
    rewrite (Hs _ _ Hw). reflexivity.
  - unfold dispatch_close. destruct (sockets h !! ws) as [w|] eqn:Hw; [|reflexivity].
    rewrite (Hs _ _ Hw). reflexivity.
  - destruct (timers h !! t) as [[sym|]|] eqn:Hp; try reflexivity.
    now destruct (Ht _ _ Hp).
Qed.

(** [connect] on a mounted hook that has neither a socket nor a timer. *)
Lemma connect_one_subscription (sym : string) (h : Hook) :
  mountedRef h = true -> wsRef h = None ->
  all_closed h -> no_timer_pending h ->
  one_subscription (run_callback (connect sym) h).
Proof.
  intros Hm Hws Hs Ht.
  destruct (WebSocket_rejects (wsUrl sym)) eqn:Hr; unfold run_callback.
  - rewrite connect_rejected by assumption. split; hook_simpl.
    + assumption.
    + intros i w Hw Hopen. now rewrite (Hs _ _ Hw) in Hopen.
    + intros t c Hp. now destruct (Ht _ _ Hp).
  - rewrite connect_accepted by assumption. split; hook_simpl.
    + assumption.
    + intros i w Hw Hopen. apply lookup_snoc_Some in Hw as [[_ Hw] | [-> _]].
      * now rewrite (Hs _ _ Hw) in Hopen.
      * reflexivity.
    + intros t c Hp. now destruct (Ht _ _ Hp).
Qed.

Lemma mount_one_subscription (sym : string) : one_subscription (mount sym).
Proof.
  unfold mount. rewrite effect_eq.
  apply connect_one_subscription; try reflexivity.
  - intros i w Hw. discriminate.
  - intros t c Hp. discriminate.
Qed.

Lemma close_one_subscription (failed : bool) (ws : nat) (h h' : Hook) :
  one_subscription h ->
  dispatch_close failed ws h = Some h' ->
  one_subscription h'.
Proof.
  intros [Hm Hs Ht] Hstep.
  apply dispatch_close_eq in Hstep as (w & Hw & Hopen & ->).
  pose proof (Hs _ _ Hw Hopen) as Href.
  assert (Hclosed : forall i w',
             alter (set_readyState CLOSED) ws (sockets h) !! i = Some w' ->
             readyState w' = CLOSED).
  { intros i w' Hw'. destruct (decide (ws = i)) as [<- | Hne].
    - rewrite list_lookup_alter_eq, Hw in Hw'. now injection Hw' as <-.
    - rewrite list_lookup_alter_ne in Hw' by assumption.
      destruct (decide (readyState w' = CLOSED)) as [|Hno]; [assumption |].
      pose proof (Hs _ _ Hw' Hno) as Href'. congruence. }
  assert (Hnone : forall t c, timers h !! t <> Some (Some c)).
  { intros t c Hp. destruct (Ht _ _ Hp) as [_ Hnull]. congruence. }
  set (h1 := (if failed then setError _ else id) _).
  assert (Hm1 : mountedRef h1 = true) by (subst h1; now destruct failed).
  assert (Hs1 : sockets h1 = alter (set_readyState CLOSED) ws (sockets h))
    by (subst h1; now destruct failed).
  assert (Ht1 : timers h1 = timers h) by (subst h1; now destruct failed).
  destruct (onclose_cases (closure_symbol w) h1) as [[_ Hlt] | [Hge | [Hm' _]]].
  - rewrite onclose_retry by assumption. split; hook_simpl.
    + assumption.
    + rewrite Hs1. intros i w' Hw' Hopen'. now rewrite (Hclosed _ _ Hw') in Hopen'.
    + rewrite Ht1. intros t c Hp.
      apply lookup_snoc_Some in Hp as [[_ Hp] | [-> _]].
      * now destruct (Hnone _ _ Hp).
      * split; reflexivity.
  - rewrite onclose_exhausted by assumption. split; hook_simpl.
    + assumption.
    + rewrite Hs1. intros i w' Hw' Hopen'. now rewrite (Hclosed _ _ Hw') in Hopen'.
    + rewrite Ht1. intros t c Hp. now destruct (Hnone _ _ Hp).
  - congruence.
Qed.

Lemma step_one_subscription (e : Event) (h h' : Hook) :
  one_subscription h ->
  is_transport_event e = true ->
  step e h = Some h' ->
  one_subscription h'.
Proof.
  intros Hinv He Hstep.
  destruct e as [sym| |ws|ws d|ws|ws|t]; try discriminate.
  - destruct Hinv as [Hm Hs Ht].
    apply step_WsOpen in Hstep as (w & Hw & Hc & ->).
    rewrite onopen_eq. split; hook_simpl.
    + assumption.
    + intros i w' Hw' Hopen. destruct (decide (ws = i)) as [<- | Hne].
      * apply (Hs _ _ Hw). now rewrite Hc.
      * rewrite list_lookup_alter_ne in Hw' by assumption. now apply (Hs _ _ Hw').
    + assumption.
  - destruct Hinv as [Hm Hs Ht].
    apply step_WsMessage in Hstep as (w & _ & _ & ->).
    destruct (onmessage_refs d h) as [r ->]. split; assumption.
  - now apply (close_one_subscription false ws h).
  - now apply (close_one_subscription true ws h).
  - destruct Hinv as [Hm Hs Ht].
    apply step_TimerFire in Hstep as (sym & Hp & ->).
    destruct (Ht _ _ Hp) as [Href Hnull].
    apply connect_one_subscription;
      unfold all_closed, no_timer_pending; hook_simpl; try assumption.
    + intros i w Hw. destruct (decide (readyState w = CLOSED)) as [|Hno]; [assumption |].
      pose proof (Hs _ _ Hw Hno). congruence.
    + intros t' c Hp'. destruct (decide (t = t')) as [<- | Hne].
      * rewrite list_lookup_alter_eq, Hp in Hp'. discriminate.
      * rewrite list_lookup_alter_ne in Hp' by assumption.
        destruct (Ht _ _ Hp') as [Href' _]. congruence.
Qed.

Lemma run_one_subscription (es : list Event) (h h' : Hook) :
  one_subscription h ->
  forallb is_transport_event es = true ->
  run es h = Some h' ->
  one_subscription h'.
Proof.
  revert h. induction es as [|e es IH]; intros h Hinv Hes Hrun; simpl in *.
  - now injection Hrun as <-.
  - apply andb_prop in Hes as [He Hes].
    destruct (step e h) as [h1|] eqn:Hstep; [|discriminate].
    apply (IH h1); [| assumption ..].
    now apply (step_one_subscription e h).
Qed.

Lemma one_subscription_one_socket (h : Hook) (i j : nat) (wi wj : WebSocket) :
  one_subscription h ->
  sockets h !! i = Some wi -> sockets h !! j = Some wj ->
  readyState wi <> CLOSED -> readyState wj <> CLOSED ->
  i = j.
Proof.
  intros [_ Hs _] Hi Hj Hoi Hoj.
  pose proof (Hs _ _ Hi Hoi). pose proof (Hs _ _ Hj Hoj). congruence.
Qed.

(** [connect] tests the flag and nothing else.  It does nothing when the
    hook is not mounted; on a mounted hook (and a URL the constructor
    accepts) it makes one new socket, in state CONNECTING, and points wsRef
    at it, whatever wsRef held before, and it changes none of the returned
    cells.  Within one subscription (from the mount on, with no change of
    symbol and no unmount) at most one socket is not closed at any time. *)
Lemma connect_always_opens :
  (forall sym h,
      mountedRef h = false -> run_callback (connect sym) h = h) /\
  (forall sym h,
      mountedRef h = true ->
      WebSocket_rejects (wsUrl sym) = false ->
      sockets (run_callback (connect sym) h) =
        sockets h ++
          [{| url := wsUrl sym; readyState := CONNECTING; closure_symbol := sym |}] /\
      wsRef (run_callback (connect sym) h) = Some (length (sockets h)) /\
      state (run_callback (connect sym) h) = state h) /\
  (forall sym es h,
      forallb is_transport_event es = true ->
      run es (mount sym) = Some h ->
      forall i j wi wj,
        sockets h !! i = Some wi -> sockets h !! j = Some wj ->
        readyState wi <> CLOSED -> readyState wj <> CLOSED ->
        i = j).
Proof.
  split; [| split].
  - intros sym h Hm. unfold run_callback. now rewrite connect_unmounted.
  - intros sym h Hm Hok. unfold run_callback. rewrite connect_accepted by assumption.
    repeat split.
  - intros sym es h Hes Hrun i j wi wj.
    apply one_subscription_one_socket.
    apply (run_one_subscription es (mount sym)); [| assumption ..].
    apply mount_one_subscription.
Qed.

(** ** The reconnect budget *)

Lemma mount_attempting (sym : string) :
  WebSocket_rejects (wsUrl sym) = false ->
  attempting sym 0 (mount sym) /\ error (state (mount sym)) = null.
Proof.
  intros Hok. pose proof (mount_one_subscription sym) as Hinv. revert Hinv.
  unfold mount. rewrite effect_eq. unfold run_callback.
  rewrite connect_accepted by (hook_simpl; trivial).
  intros Hinv. split; [split |]; try reflexivity. exact Hinv.
Qed.

(** A close while the budget lasts, and the reconnect it schedules. *)
Lemma failure_round (sym : string) (k : nat) (failed : bool) (h : Hook) :
  WebSocket_rejects (wsUrl sym) = false ->
  attempting sym k h ->
  k < MAX_RECONNECT_ATTEMPTS ->
  exists h',
    run [close_event failed k; TimerFire k] h = Some h' /\
    attempting sym (S k) h' /\
    error (state h') =
      (if failed then str "WebSocket connection error" else error (state h)).
Proof.
  intros Hok [Hinv Hatt Href Hsock Hlen Htim Hload Hconn] Hlt.
  pose proof (sub_mounted h Hinv) as Hm.
  destruct (step (close_event failed k) h) as [h1|] eqn:Hstep1.
  2:{ exfalso. revert Hstep1. destruct failed; simpl; unfold dispatch_close;
        rewrite Hsock; simpl; discriminate. }
  pose proof Hstep1 as Hinv1.
  apply (step_one_subscription _ _ _ Hinv) in Hinv1; [| now destruct failed].
  assert (Heq1 : dispatch_close failed k h = Some h1) by (now destruct failed).
  apply dispatch_close_eq in Heq1 as (w & Hw & _ & Heq1).
  rewrite Hsock in Hw. injection Hw as <-. hook_simpl. simpl in Heq1.
  rewrite onclose_retry in Heq1;
    [| now destruct failed | destruct failed; hook_simpl; lia].
  assert (Htimers1 : timers h1 = timers h ++ [Some sym])
    by (subst h1; now destruct failed).
  assert (Hpending : timers h1 !! k = Some (Some sym)).
  { rewrite Htimers1, <- Htim. apply list_lookup_middle. reflexivity. }
  destruct (step (TimerFire k) h1) as [h2|] eqn:Hstep2.
  2:{ exfalso. revert Hstep2. simpl. now rewrite Hpending. }
  pose proof Hstep2 as Hinv2.
  apply (step_one_subscription _ _ _ Hinv1) in Hinv2; [| reflexivity].
  exists h2. split; [cbn [run]; now rewrite Hstep1, Hstep2 |].
  apply step_TimerFire in Hstep2 as (sym' & Hp & Heq2).
  rewrite Hpending in Hp. injection Hp as <-.
  unfold run_callback in Heq2.
  rewrite connect_accepted in Heq2;
    [| hook_simpl; now apply (sub_mounted h1) | assumption].
  hook_simpl.
  assert (Hsockets1 : sockets h1 = alter (set_readyState CLOSED) k (sockets h))
    by (subst h1; now destruct failed).
  assert (Hlen1 : length (sockets h1) = S k) by (now rewrite Hsockets1, length_alter).
  split; [split |].
  - exact Hinv2.
  - subst h2 h1. hook_simpl. destruct failed; hook_simpl; now rewrite Hatt.
  - subst h2. hook_simpl. now rewrite Hlen1.
  - subst h2. hook_simpl. rewrite <- Hlen1. apply list_lookup_middle. reflexivity.
  - subst h2. hook_simpl. rewrite length_app, Hlen1. simpl. lia.
  - subst h2. hook_simpl. rewrite length_alter, Htimers1, length_app. simpl. lia.
  - subst h2 h1. hook_simpl. now destruct failed.
  - subst h2 h1. hook_simpl. now destruct failed.
  - subst h2 h1. hook_simpl. now destruct failed.
Qed.

(** The close that finds the budget spent. *)
Lemma final_failure (sym : string) (k : nat) (failed : bool) (h : Hook) :
  attempting sym k h ->
  MAX_RECONNECT_ATTEMPTS <= k ->
  exists h',
    step (close_event failed k) h = Some h' /\
    state h' =
      {| data := data (state h); isConnected := false; isLoading := false;
         error := str "Failed to connect after multiple attempts. Please refresh the page.";
         lastUpdate := lastUpdate (state h) |} /\
    length (sockets h') = S k /\
    all_closed h' /\ no_timer_pending h'.
Proof.
  intros [Hinv Hatt Href Hsock Hlen Htim Hload Hconn] Hge.
  destruct (step (close_event failed k) h) as [h1|] eqn:Hstep1.
  2:{ exfalso. revert Hstep1. destruct failed; simpl; unfold dispatch_close;
        rewrite Hsock; simpl; discriminate. }
  pose proof Hstep1 as Hinv1.
  apply (step_one_subscription _ _ _ Hinv) in Hinv1; [| now destruct failed].
  assert (Heq1 : dispatch_close failed k h = Some h1) by (now destruct failed).
  apply dispatch_close_eq in Heq1 as (w & Hw & _ & Heq1).
  rewrite onclose_exhausted in Heq1 by (destruct failed; hook_simpl; lia).
  exists h1. split; [reflexivity |].
  assert (Href1 : wsRef h1 = None) by (subst h1; reflexivity).
  assert (Htimers1 : timers h1 = timers h) by (subst h1; now destruct failed).
  split; [| split; [| split]].
  - subst h1. now destruct failed.
  - subst h1. hook_simpl. destruct failed; hook_simpl; now rewrite length_alter.
  - intros i w' Hw'. destruct (decide (readyState w' = CLOSED)) as [|Hno]; [assumption |].
    pose proof (sub_sockets h1 Hinv1 _ _ Hw' Hno). congruence.
  - intros t c Hp. rewrite Htimers1 in Hp.
    destruct (sub_timers h Hinv _ _ Hp). congruence.
Qed.

Lemma failures_run (sym : string) (failed : list bool) :
  WebSocket_rejects (wsUrl sym) = false ->
  forall k h,
    attempting sym k h ->
    k + length failed <= MAX_RECONNECT_ATTEMPTS ->
    error (state h) <>
      str "Failed to connect after multiple attempts. Please refresh the page." ->
    exists h',
      run (consecutive_failures k failed) h = Some h' /\
      attempting sym (k + length failed) h' /\
      error (state h') <>
        str "Failed to connect after multiple attempts. Please refresh the page.".
Proof.
  intros Hok. induction failed as [|f fs IH]; intros k h Hatt Hle Herr.
  - exists h. simpl. rewrite Nat.add_0_r. auto.
  - simpl in Hle.
    destruct (failure_round sym k f h Hok Hatt) as (h1 & Hrun1 & Hatt1 & Herr1); [lia |].
    destruct (IH (S k) h1 Hatt1) as (h2 & Hrun2 & Hatt2 & Herr2); [lia | |].
    { rewrite Herr1. destruct f; [discriminate | assumption]. }
    exists h2. split; [| split].
    + cbn [run consecutive_failures] in Hrun1 |- *.
      destruct (step (close_event f k) h) as [ha|]; [|discriminate].
      destruct (step (TimerFire k) ha) as [hb|]; [|discriminate].
      injection Hrun1 as ->. exact Hrun2.
    + simpl. now rewrite Nat.add_succ_r.
    + exact Herr2.
Qed.

Lemma close_with_budget (failed : bool) (ws : nat) (h h' : Hook) :
  mountedRef h = true ->
  reconnectAttemptsRef h < MAX_RECONNECT_ATTEMPTS ->
  dispatch_close failed ws h = Some h' ->
  reconnectAttemptsRef h' = S (reconnectAttemptsRef h) /\
  (exists sym, timers h' = timers h ++ [Some sym]) /\
  reconnectTimeoutRef h' = Some (length (timers h)) /\
  error (state h') =
    (if failed then str "WebSocket connection error" else error (state h)).
Proof.
  intros Hm Hlt Hstep. apply dispatch_close_eq in Hstep as (w & _ & _ & ->).
  rewrite onclose_retry; [| now destruct failed | now destruct failed].
  hook_simpl. split; [now destruct failed |].
  split; [exists (closure_symbol w); now destruct failed |].
  split; now destruct failed.
Qed.

Lemma close_without_budget (failed : bool) (ws : nat) (h h' : Hook) :
  MAX_RECONNECT_ATTEMPTS <= reconnectAttemptsRef h ->
  dispatch_close failed ws h = Some h' ->
  error (state h') =
    str "Failed to connect after multiple attempts. Please refresh the page." /\
  timers h' = timers h /\
  length (sockets h') = length (sockets h) /\
  wsRef h' = None.
Proof.
  intros Hge Hstep. apply dispatch_close_eq in Hstep as (w & _ & _ & ->).
  rewrite onclose_exhausted by (now destruct failed).
  hook_simpl. split; [reflexivity |]. split; [now destruct failed |].
  split; [destruct failed; hook_simpl; apply length_alter | reflexivity].
Qed.

(** C2, as amended: the budget counts reconnects, not failures.  A close on
    a mounted hook whose counter is below the maximum (5) adds one to the
    counter and sets a reconnect timer, without showing the give-up text; a
    close that finds the counter at the maximum sets the give-up text and
    no timer.  So, starting from the mount, after k consecutive failures
    (k at most 5) the counter is k, connection number k is under way and the
    give-up text is not shown: each of these closes scheduled a reconnect,
    the fifth one included.  Only the close after that, the sixth in a
    row, sets the give-up text; it leaves every socket closed and no timer
    pending, so that no socket or timer event can follow: six connections
    are made in all, and no sixth reconnect is ever scheduled. *)
Theorem reconnect_budget :
  (forall failed ws h h',
      mountedRef h = true ->
      reconnectAttemptsRef h < MAX_RECONNECT_ATTEMPTS ->
      dispatch_close failed ws h = Some h' ->
      reconnectAttemptsRef h' = S (reconnectAttemptsRef h) /\
      (exists sym, timers h' = timers h ++ [Some sym]) /\
      reconnectTimeoutRef h' = Some (length (timers h)) /\
      error (state h') =
        (if failed then str "WebSocket connection error" else error (state h))) /\
  (forall failed ws h h',
      MAX_RECONNECT_ATTEMPTS <= reconnectAttemptsRef h ->
      dispatch_close failed ws h = Some h' ->
      error (state h') =
        str "Failed to connect after multiple attempts. Please refresh the page." /\
      timers h' = timers h /\
      length (sockets h') = length (sockets h) /\
      wsRef h' = None) /\
  (forall sym failed,
      WebSocket_rejects (wsUrl sym) = false ->
      length failed <= MAX_RECONNECT_ATTEMPTS ->
      exists h,
        run (consecutive_failures 0 failed) (mount sym) = Some h /\
        reconnectAttemptsRef h = length failed /\
        wsRef h = Some (length failed) /\
        sockets h !! length failed =
          Some {| url := wsUrl sym; readyState := CONNECTING; closure_symbol := sym |} /\
        error (state h) <>
          str "Failed to connect after multiple attempts. Please refresh the page." /\
        (length failed = MAX_RECONNECT_ATTEMPTS ->
         forall f, exists h',
           step (close_event f MAX_RECONNECT_ATTEMPTS) h = Some h' /\
           error (state h') =
             str "Failed to connect after multiple attempts. Please refresh the page." /\
           isConnected (state h') = false /\
           isLoading (state h') = false /\
           length (sockets h') = S MAX_RECONNECT_ATTEMPTS /\
           forall e, is_transport_event e = true -> step e h' = None)).
Proof.
  split; [exact close_with_budget |]. split; [exact close_without_budget |].
  intros sym failed Hok Hle.
  destruct (mount_attempting sym Hok) as [Hatt0 Herr0].
  destruct (failures_run sym failed Hok 0 (mount sym) Hatt0) as (h & Hrun & Hatt & Herr).
  { simpl. exact Hle. }
  { rewrite Herr0. discriminate. }
  simpl in Hatt. exists h. split; [exact Hrun |].
  split; [apply (att_attempts _ _ _ Hatt) |].
  split; [apply (att_wsRef _ _ _ Hatt) |].
  split; [apply (att_socket _ _ _ Hatt) |].
  split; [exact Herr |].
  intros Hmax f. rewrite Hmax in Hatt.
  destruct (final_failure sym _ f h Hatt) as (h' & Hstep & Hst & Hlen & Hclosed & Hnone);
    [reflexivity |].
  exists h'. split; [exact Hstep |]. rewrite Hst. repeat split; [exact Hlen |].
  intros e He. now apply quiescent.
Qed.

(** C5, as amended: isLoading starts true and is set to false when a socket
    opens; once false it is never true again, whatever happens next
    (reconnects, a change of symbol, unmounting).  It is not tied to the
    first attempt: while nothing has opened yet, the reconnect attempts that
    follow failures run with isLoading still true. *)
Theorem isLoading_only_falls :
  (forall sym, isLoading (state (initial sym)) = true) /\
  (forall ws h h',
      step (WsOpen ws) h = Some h' -> isLoading (state h') = false) /\
  (forall e h h',
      step e h = Some h' ->
      isLoading (state h) = false -> isLoading (state h') = false) /\
  (forall sym failed,
      WebSocket_rejects (wsUrl sym) = false ->
      length failed <= MAX_RECONNECT_ATTEMPTS ->
      exists h,
        run (consecutive_failures 0 failed) (mount sym) = Some h /\
        reconnectAttemptsRef h = length failed /\
        isLoading (state h) = true).
Proof.
  split; [reflexivity |]. split; [| split].
  - intros ws h h' Hstep. apply step_WsOpen in Hstep as (w & _ & _ & ->). reflexivity.
  - exact step_isLoading.
  - intros sym failed Hok Hle.
    destruct (mount_attempting sym Hok) as [Hatt0 Herr0].
    destruct (failures_run sym failed Hok 0 (mount sym) Hatt0) as (h & Hrun & Hatt & _).
    { simpl. exact Hle. }
    { rewrite Herr0. discriminate. }
    exists h. split; [exact Hrun |].
    split; [apply (att_attempts _ _ _ Hatt) | apply (att_isLoading _ _ _ Hatt)].
Qed.

(** ** Teardown *)

Lemma alter_clear_twice (t : nat) (l : list Timer) :
  alter (fun _ => None) t (alter (fun _ => None) t l) = alter (fun _ => None) t l.
Proof.
  apply list_eq. intros j. destruct (decide (t = j)) as [<- | Hne].
  - rewrite !list_lookup_alter_eq. now destruct (l !! t).
  - now rewrite !list_lookup_alter_ne.
Qed.

Lemma cleanup_idempotent (h : Hook) :
  run_callback cleanup (run_callback cleanup h) = run_callback cleanup h.
Proof.
  rewrite !cleanup_eq. hook_simpl. f_equal.
  destruct (reconnectTimeoutRef h); [apply alter_clear_twice | reflexivity].
Qed.

Lemma cleanup_clears_recorded_timer (h : Hook) (t : nat) (sym : string) :
  reconnectTimeoutRef h = Some t ->
  timers (run_callback cleanup h) !! t <> Some (Some sym).
Proof.
  intros Href. rewrite cleanup_eq. hook_simpl. rewrite Href.
  rewrite list_lookup_alter_eq. now destruct (timers h !! t).
Qed.

Lemma cleanup_no_timer_pending (h : Hook) :
  (forall t sym, timers h !! t = Some (Some sym) -> reconnectTimeoutRef h = Some t) ->
  no_timer_pending (run_callback cleanup h).
Proof.
  intros Hrec t sym Hp.
  destruct (reconnectTimeoutRef h) as [t0|] eqn:Href.
  - destruct (decide (t0 = t)) as [-> | Hne].
    + now apply (cleanup_clears_recorded_timer h t sym).
    + rewrite cleanup_eq in Hp. hook_simpl. rewrite Href in Hp.
      rewrite list_lookup_alter_ne in Hp by assumption.
      apply Hrec in Hp. congruence.
  - rewrite cleanup_eq in Hp. hook_simpl. rewrite Href in Hp.
    now apply Hrec in Hp.
Qed.

Lemma onmessage_ignores_mountedRef (event_data : MessageData) (b : bool) (h : Hook) :
  run_callback (onmessage event_data) (set_mountedRef b h) =
    set_mountedRef b (run_callback (onmessage event_data) h).
Proof.
  destruct event_data as [|m]; [reflexivity |].
  destruct (has_type m "market_radar_update") eqn:Hup.
  - destruct (has_data m) eqn:Hd.
    + now rewrite !onmessage_update.
    + now rewrite !onmessage_update_without_data.
  - destruct (has_type m "error") eqn:Her.
    + now rewrite !onmessage_error.
    + now rewrite !onmessage_other.
Qed.

Lemma close_while_unmounted (failed : bool) (ws : nat) (h h' : Hook) :
  mountedRef h = false ->
  dispatch_close failed ws h = Some h' ->
  length (sockets h') = length (sockets h) /\
  timers h' = timers h /\
  reconnectAttemptsRef h' = reconnectAttemptsRef h.
Proof.
  intros Hm Hstep. apply dispatch_close_eq in Hstep as (w & _ & _ & ->).
  set (h1 := (if failed then setError _ else id) _).
  assert (Hm1 : mountedRef h1 = false) by (subst h1; now destruct failed).
  assert (Hs1 : length (sockets h1) = length (sockets h))
    by (subst h1; destruct failed; hook_simpl; apply length_alter).
  assert (Ht1 : timers h1 = timers h) by (subst h1; now destruct failed).
  assert (Ha1 : reconnectAttemptsRef h1 = reconnectAttemptsRef h)
    by (subst h1; now destruct failed).
  destruct (onclose_cases (closure_symbol w) h1) as [[Hm' _] | [Hge | [_ Hlt]]].
  - congruence.
  - rewrite onclose_exhausted by assumption. hook_simpl. auto.
  - rewrite onclose_unmounted by assumption. hook_simpl. auto.
Qed.

(** A close event while the flag is set: whatever the counter, and
    whichever socket it is, isConnected is set to false. *)
Lemma close_while_mounted (failed : bool) (ws : nat) (h h' : Hook) :
  mountedRef h = true ->
  dispatch_close failed ws h = Some h' ->
  isConnected (state h') = false.
Proof.
  intros Hm Hstep. apply dispatch_close_eq in Hstep as (w & _ & _ & ->).
  set (h1 := (if failed then setError _ else id) _).
  assert (Hm1 : mountedRef h1 = true) by (subst h1; now destruct failed).
  destruct (onclose_cases (closure_symbol w) h1) as [[_ Hlt] | [Hge | [Hm' _]]].
  - now rewrite onclose_retry.
  - now rewrite onclose_exhausted.
  - congruence.
Qed.

(** C3, as amended: teardown is idempotent, changes none of the returned
    cells, and cancels the reconnect timer recorded in reconnectTimeoutRef
    (hence every pending timer, when no other is pending).  The liveness
    flag is checked in two places only: [connect], the timer callback, does
    nothing while the flag is false, and a close event that arrives while the
    flag is false makes no socket, sets no timer and leaves the attempt
    counter.  The open, message and error callbacks do not look at the flag:
    they run the same whether it is set or not.  The close callback sets
    isConnected to false before it looks at the flag: while the flag is set
    (as it is again after a change of symbol) the close event of any socket,
    one that the teardown closed included, sets isConnected to false. *)
Theorem teardown_gates_reconnect :
  (forall h, run_callback cleanup (run_callback cleanup h) = run_callback cleanup h) /\
  (forall h, state (run_callback cleanup h) = state h) /\
  (forall h t sym,
      reconnectTimeoutRef h = Some t ->
      timers (run_callback cleanup h) !! t <> Some (Some sym)) /\
  (forall h,
      (forall t sym, timers h !! t = Some (Some sym) -> reconnectTimeoutRef h = Some t) ->
      no_timer_pending (run_callback cleanup h)) /\
  (forall sym h, mountedRef h = false -> run_callback (connect sym) h = h) /\
  (forall failed ws w h,
      mountedRef h = false ->
      sockets h !! ws = Some w ->
      readyState w <> CLOSED ->
      exists h',
        dispatch_close failed ws h = Some h' /\
        length (sockets h') = length (sockets h) /\
        timers h' = timers h /\
        reconnectAttemptsRef h' = reconnectAttemptsRef h) /\
  (forall b h,
      run_callback onopen (set_mountedRef b h) = set_mountedRef b (run_callback onopen h)) /\
  (forall event_data b h,
      run_callback (onmessage event_data) (set_mountedRef b h) =
        set_mountedRef b (run_callback (onmessage event_data) h)) /\
  (forall b h,
      run_callback onerror (set_mountedRef b h) = set_mountedRef b (run_callback onerror h)) /\
  (forall failed ws w h,
      mountedRef h = true ->
      sockets h !! ws = Some w ->
      readyState w <> CLOSED ->
      exists h',
        dispatch_close failed ws h = Some h' /\
        isConnected (state h') = false).
Proof.
  split; [exact cleanup_idempotent |].
  split; [exact cleanup_state |].
  split; [exact cleanup_clears_recorded_timer |].
  split; [exact cleanup_no_timer_pending |].
  split; [intros sym h Hm; unfold run_callback; now rewrite connect_unmounted |].
  split.
  { intros failed ws w h Hm Hw Hno. eexists.
    split; [now apply (close_runs failed ws w) |].
    apply (close_while_unmounted failed ws h); [assumption |].
    now apply (close_runs failed ws w). }
  split; [reflexivity |].
  split; [exact onmessage_ignores_mountedRef |].
  split; [reflexivity |].
  intros failed ws w h Hm Hw Hno. eexists.
  split; [now apply (close_runs failed ws w) |].
  apply (close_while_mounted failed ws h); [assumption |].
  now apply (close_runs failed ws w).
Qed.

(** C6, as amended: when the symbol changes while wsRef holds a live
    socket, the cleanup runs first: it calls close on that socket (which goes
    to CLOSING), clears wsRef and cancels the recorded reconnect timer, and
    makes no socket; only then is the socket for the new symbol made (its URL
    being one the constructor accepts).  During
    the first subscription (from the mount up to the first change of symbol)
    every live socket is the one wsRef holds and no timer is pending beside
    it, so that after the change the only socket that is connecting or open
    is the new symbol's, and no timer is pending.  The returned cells, the
    accumulated data among them, are carried over unchanged: nothing is reset
    for the new subscription. *)
Theorem symbol_change_rebinds :
  (forall sym' h i w,
      mountedRef h = true ->
      sym' <> symbol h ->
      wsRef h = Some i ->
      sockets h !! i = Some w ->
      readyState w = CONNECTING \/ readyState w = OPEN ->
      WebSocket_rejects (wsUrl sym') = false ->
      exists h2,
        step (SymbolChange sym') h = Some h2 /\
        h2 = run_callback (effect sym') (set_symbol sym' (run_callback cleanup h)) /\
        length (sockets (run_callback cleanup h)) = length (sockets h) /\
        sockets (run_callback cleanup h) !! i = Some (set_readyState CLOSING w) /\
        wsRef (run_callback cleanup h) = None /\
        (forall t sym, reconnectTimeoutRef h = Some t ->
            timers (run_callback cleanup h) !! t <> Some (Some sym)) /\
        sockets h2 =
          sockets (run_callback cleanup h) ++
            [{| url := wsUrl sym'; readyState := CONNECTING; closure_symbol := sym' |}] /\
        wsRef h2 = Some (length (sockets h)) /\
        symbol h2 = sym' /\
        state h2 = state h) /\
  (forall sym sym' es h i w,
      forallb is_transport_event es = true ->
      run es (mount sym) = Some h ->
      sym' <> symbol h ->
      sockets h !! i = Some w ->
      readyState w = CONNECTING \/ readyState w = OPEN ->
      WebSocket_rejects (wsUrl sym') = false ->
      wsRef h = Some i /\
      no_timer_pending h /\
      exists h2,
        step (SymbolChange sym') h = Some h2 /\
        sockets h2 =
          alter closing i (sockets h) ++
            [{| url := wsUrl sym'; readyState := CONNECTING; closure_symbol := sym' |}] /\
        sockets h2 !! i = Some (set_readyState CLOSING w) /\
        (forall j wj,
            sockets h2 !! j = Some wj ->
            readyState wj = CONNECTING \/ readyState wj = OPEN ->
            j = length (sockets h)) /\
        no_timer_pending h2 /\
        state h2 = state h).
Proof.
  assert (Hfirst : forall sym' h i w,
      mountedRef h = true ->
      sym' <> symbol h ->
      wsRef h = Some i ->
      sockets h !! i = Some w ->
      readyState w = CONNECTING \/ readyState w = OPEN ->
      WebSocket_rejects (wsUrl sym') = false ->
      exists h2,
        step (SymbolChange sym') h = Some h2 /\
        h2 = run_callback (effect sym') (set_symbol sym' (run_callback cleanup h)) /\
        length (sockets (run_callback cleanup h)) = length (sockets h) /\
        sockets (run_callback cleanup h) !! i = Some (set_readyState CLOSING w) /\
        wsRef (run_callback cleanup h) = None /\
        (forall t sym, reconnectTimeoutRef h = Some t ->
            timers (run_callback cleanup h) !! t <> Some (Some sym)) /\
        sockets h2 =
          sockets (run_callback cleanup h) ++
            [{| url := wsUrl sym'; readyState := CONNECTING; closure_symbol := sym' |}] /\
        wsRef h2 = Some (length (sockets h)) /\
        symbol h2 = sym' /\
        state h2 = state h).
  { intros sym' h i w Hm Hne Href Hw Hlive Hok.
    destruct (step (SymbolChange sym') h) as [h2|] eqn:Hstep.
    2:{ exfalso. revert Hstep. simpl. rewrite Hm.
        destruct (String.eqb sym' (symbol h)); discriminate. }
    exists h2. split; [reflexivity |].
    apply step_SymbolChange in Hstep as [_ [[Heq _] | [_ Heq]]]; [contradiction |].
    split; [exact Heq |].
    assert (Hlen : length (sockets (run_callback cleanup h)) = length (sockets h)).
    { rewrite cleanup_eq. hook_simpl. rewrite Href. apply length_alter. }
    split; [exact Hlen |].
    split.
    { rewrite cleanup_eq. hook_simpl. rewrite Href, list_lookup_alter_eq, Hw.
      simpl. f_equal. unfold closing, set_readyState. now destruct Hlive as [-> | ->]. }
    split; [now rewrite cleanup_eq |].
    split; [intros t sym Ht; now apply cleanup_clears_recorded_timer |].
    rewrite effect_eq in Heq. unfold run_callback at 1 in Heq.
    rewrite connect_accepted in Heq by (hook_simpl; trivial).
    subst h2. hook_simpl. rewrite Hlen.
    repeat split. now rewrite cleanup_state. }
  split; [exact Hfirst |].
  intros sym sym' es h i w Hes Hrun Hne Hw Hlive Hok.
  assert (Hinv : one_subscription h).
  { apply (run_one_subscription es (mount sym)); [apply mount_one_subscription | assumption ..]. }
  destruct Hinv as [Hm Hs Ht].
  assert (Hno : readyState w <> CLOSED) by (destruct Hlive as [-> | ->]; discriminate).
  pose proof (Hs _ _ Hw Hno) as Href.
  assert (Hquiet : no_timer_pending h).
  { intros t c Hp. destruct (Ht _ _ Hp) as [_ Hnull]. congruence. }
  split; [exact Href |]. split; [exact Hquiet |].
  destruct (Hfirst sym' h i w Hm Hne Href Hw Hlive Hok)
    as (h2 & Hstep & Heq & Hlen & Hi & _ & _ & Hsockets & _ & _ & Hstate).
  assert (Hcl : sockets (run_callback cleanup h) = alter closing i (sockets h)).
  { rewrite cleanup_eq. hook_simpl. now rewrite Href. }
  assert (Htm : forall t c, timers h2 !! t <> Some (Some c)).
  { intros t c. rewrite Heq, effect_eq. unfold run_callback at 1.
    rewrite connect_accepted by (hook_simpl; trivial). hook_simpl.
    rewrite cleanup_eq. hook_simpl.
    destruct (reconnectTimeoutRef h) as [t0|]; [| apply Hquiet].
    destruct (decide (t0 = t)) as [-> | Hd].
    - rewrite list_lookup_alter_eq. now destruct (timers h !! t).
    - rewrite list_lookup_alter_ne by assumption. apply Hquiet. }
  exists h2. split; [exact Hstep |].
  split; [now rewrite Hsockets, Hcl |].
  split.
  { rewrite Hsockets, lookup_app_l by (rewrite Hlen; now apply lookup_lt_Some in Hw).
    exact Hi. }
  split; [| split; [exact Htm | exact Hstate]].
  intros j wj Hj Hjlive. rewrite Hsockets, Hcl in Hj.
  apply lookup_snoc_Some in Hj as [[_ Hj] | [Hj _]].
  - exfalso. destruct (decide (i = j)) as [<- | Hd].
    + rewrite list_lookup_alter_eq, Hw in Hj. injection Hj as <-.
      unfold closing in Hjlive. destruct Hlive as [Hr | Hr]; rewrite Hr in Hjlive;
        simpl in Hjlive; destruct Hjlive; discriminate.
    + rewrite list_lookup_alter_ne in Hj by assumption.
      assert (Hnj : readyState wj <> CLOSED) by (destruct Hjlive as [-> | ->]; discriminate).
      pose proof (Hs _ _ Hj Hnj). congruence.
  - rewrite Hj. apply length_alter.
Qed.

End Properties.

(** * Runs on the default deployment *)

Section Runs.
#[local] Existing Instance default_deployment.

Lemma btc_opened_reached : run [WsOpen 0] (mount "BTC") = Some btc_opened.
Proof. reflexivity. Qed.

Lemma btc_populated_reached :
  run [WsOpen 0;
       WsMessage 0 (json_text (update_frame "t1" sample_snapshot JNull JNull JNull))]
    (mount "BTC") = Some btc_populated.
Proof. reflexivity. Qed.

Lemma btc_showing_error_reached :
  run [WsOpen 0;
       WsMessage 0 (json_text (update_frame "t1" sample_snapshot JNull JNull JNull));
       WsMessage 0 (json_text (error_frame "boom"))]
    (mount "BTC") = Some btc_showing_error.
Proof. reflexivity. Qed.

Lemma btc_unmounted_reached :
  run [WsOpen 0; Unmount] (mount "BTC") = Some btc_unmounted.
Proof. reflexivity. Qed.

(** ** C1 *)

(** Against C1 as stated: the snapshot is held after a first update; a
    second update that carries anomalies and a null snapshot puts the
    snapshot back to null. *)
Lemma later_update_nulls_facet :
  snapshot (data (state btc_populated)) = json sample_snapshot /\
  (fun h => data (state h)) <$>
    step (WsMessage 0 (json_text (update_frame "t2" JNull sample_anomalies JNull JNull)))
      btc_populated
  = Some {| snapshot := null; anomalies := json sample_anomalies;
            tempo := null; timeline := null |}.
Proof. split; reflexivity. Qed.

(** [update_replaces_facets] on the same two frames, and on an error frame. *)
Lemma update_replaces_facets_witness :
  (forall h',
      step (WsMessage 0 (json_text (update_frame "t2" JNull sample_anomalies JNull JNull)))
        btc_populated = Some h' ->
      data (state h') =
        {| snapshot := null; anomalies := json sample_anomalies;
           tempo := null; timeline := null |}) /\
  (forall h',
      step (WsMessage 0 (json_text (error_frame "boom"))) btc_populated = Some h' ->
      data (state h') = data (state btc_populated)).
Proof.
  destruct update_replaces_facets as [Hupdate Hother]. split.
  - intros h' Hstep.
    apply (Hupdate 0 (update_frame "t2" JNull sample_anomalies JNull JNull)
             btc_populated h'); [reflexivity | reflexivity | exact Hstep].
  - intros h' Hstep.
    apply (Hother (WsMessage 0 (json_text (error_frame "boom"))) btc_populated h');
      [reflexivity | exact Hstep].
Defined.

(** ** C2 *)

(** Against C2 as stated: after exactly five consecutive closes the give-up
    text is not shown (no error at all), the counter is 5 and a reconnect
    timer is pending; when it fires a sixth socket is made. *)
Lemma five_failures_leave_a_reconnect_pending :
  (fun h => (error (state h), reconnectAttemptsRef h, reconnectTimeoutRef h, timers h !! 4))
    <$> run (consecutive_failures 0 [false; false; false; false] ++ [WsClose 4])
          (mount "BTC")
  = Some (null, 5, Some 4, Some (Some "BTC")) /\
  (fun h => (length (sockets h), readyState <$> sockets h !! 5))
    <$> run (consecutive_failures 0 [false; false; false; false; false]) (mount "BTC")
  = Some (6, Some CONNECTING).
Proof. split; reflexivity. Qed.

(** [reconnect_budget] on five failures of the BTC subscription, some with
    an error event and some without, and on the sixth. *)
Lemma reconnect_budget_witness :
  (forall h',
      dispatch_close true 0 (mount "BTC") = Some h' ->
      reconnectAttemptsRef h' = 1 /\ reconnectTimeoutRef h' = Some 0) /\
  (forall h',
      dispatch_close false 0 (set_reconnectAttemptsRef 5 btc_opened) = Some h' ->
      timers h' = [] /\ wsRef h' = None) /\
  (exists h h',
      run (consecutive_failures 0 [false; true; false; false; true]) (mount "BTC") = Some h /\
      reconnectAttemptsRef h = 5 /\
      step (close_event true 5) h = Some h' /\
      error (state h') =
        str "Failed to connect after multiple attempts. Please refresh the page." /\
      step (TimerFire 4) h' = None).
Proof.
  destruct reconnect_budget as (Hretry & Hspent & Hrun6).
  split; [| split].
  - intros h' Hstep.
    destruct (Hretry true 0 (mount "BTC") h') as (Hatt & _ & Href & _);
      [reflexivity | vm_compute; lia | exact Hstep |].
    split; [exact Hatt | exact Href].
  - intros h' Hstep.
    destruct (Hspent false 0 (set_reconnectAttemptsRef 5 btc_opened) h')
      as (_ & Htimers & _ & Href); [vm_compute; lia | exact Hstep |].
    split; [exact Htimers | exact Href].
  - destruct (Hrun6 "BTC" [false; true; false; false; true])
      as (h & Hrun & Hatt & _ & _ & _ & Hlast);
      [reflexivity | vm_compute; lia |].
    destruct (Hlast eq_refl true) as (h' & Hstep & Herr & _ & _ & _ & Hquiet).
    exists h, h'. repeat split; try assumption.
    apply Hquiet. reflexivity.
Defined.

(** ** C3 *)

(** Against C3 as stated: the symbol changes while the socket is open and
    the teardown calls close on it; the socket's close event, which arrives
    after the teardown has completed, sets isConnected to false (and sets a
    reconnect timer for the old symbol). *)
Lemma close_after_teardown_writes_cells :
  (fun h => (isConnected (state h), readyState <$> sockets h !! 0, timers h))
    <$> run [WsOpen 0; SymbolChange "ETH"] (mount "BTC")
  = Some (true, Some CLOSING, []) /\
  (fun h => (isConnected (state h), readyState <$> sockets h !! 0, timers h))
    <$> run [WsOpen 0; SymbolChange "ETH"; WsClose 0] (mount "BTC")
  = Some (false, Some CLOSED, [Some "BTC"]).
Proof. split; reflexivity. Qed.

(** [teardown_gates_reconnect] on the BTC subscription: unmounted while
    open, with a reconnect pending, and after a change of symbol. *)
Lemma teardown_gates_reconnect_witness :
  run_callback (connect "BTC") btc_unmounted = btc_unmounted /\
  (exists h',
      dispatch_close true 0 btc_unmounted = Some h' /\
      length (sockets h') = 1 /\ timers h' = [] /\ reconnectAttemptsRef h' = 0) /\
  (reconnectTimeoutRef btc_retrying = Some 0 /\
   timers btc_retrying = [Some "BTC"] /\
   forall sym, timers (run_callback cleanup btc_retrying) !! 0 <> Some (Some sym)) /\
  no_timer_pending (run_callback cleanup btc_retrying) /\
  (isConnected (state btc_rebound) = true /\
   exists h',
     dispatch_close false 0 btc_rebound = Some h' /\
     isConnected (state h') = false).
Proof.
  destruct teardown_gates_reconnect
    as (_ & _ & Hrecorded & Hall & Hconnect & Hclose & _ & _ & _ & Hmounted).
  split; [| split; [| split; [| split]]].
  - apply Hconnect. reflexivity.
  - refine (Hclose true 0 _ btc_unmounted _ _ _);
      [reflexivity | reflexivity | discriminate].
  - split; [reflexivity |]. split; [reflexivity |].
    intros sym. apply Hrecorded. reflexivity.
  - apply Hall. intros [|t] sym Hp; [reflexivity | discriminate].
  - split; [reflexivity |].
    refine (Hmounted false 0 _ btc_rebound _ _ _);
      [reflexivity | reflexivity | discriminate].
Defined.

(** ** C4 *)

(** C4: at this input the code leaves two live sockets.  The symbol
    changes from BTC to ETH while the BTC socket is open: the cleanup calls
    close on it and the effect makes the ETH socket.  The BTC socket's close
    event then finds the flag set again and sets a reconnect timer, although
    that socket was closed by the hook itself; when the timer fires, [connect]
    makes a second BTC socket beside the ETH socket, which is connecting, and
    points wsRef at it. *)
Theorem reconnect_beside_live_socket :
  (fun h => (map (fun w => (url w, readyState w)) (sockets h), wsRef h, timers h))
    <$> run [WsOpen 0; SymbolChange "ETH"] (mount "BTC")
  = Some ([("ws://localhost:8000/api/v1/market/radar/ws/BTCUSDT", CLOSING);
           ("ws://localhost:8000/api/v1/market/radar/ws/ETHUSDT", CONNECTING)],
          Some 1, []) /\
  (fun h => (map (fun w => (url w, readyState w)) (sockets h), wsRef h, timers h))
    <$> run [WsOpen 0; SymbolChange "ETH"; WsClose 0] (mount "BTC")
  = Some ([("ws://localhost:8000/api/v1/market/radar/ws/BTCUSDT", CLOSED);
           ("ws://localhost:8000/api/v1/market/radar/ws/ETHUSDT", CONNECTING)],
          None, [Some "BTC"]) /\
  (fun h => (map (fun w => (url w, readyState w)) (sockets h), wsRef h, timers h))
    <$> run [WsOpen 0; SymbolChange "ETH"; WsClose 0; TimerFire 0] (mount "BTC")
  = Some ([("ws://localhost:8000/api/v1/market/radar/ws/BTCUSDT", CLOSED);
           ("ws://localhost:8000/api/v1/market/radar/ws/ETHUSDT", CONNECTING);
           ("ws://localhost:8000/api/v1/market/radar/ws/BTCUSDT", CONNECTING)],
          Some 2, [None]).
Proof. repeat split. Qed.

(** ** C5 *)

(** Against C5 as stated: the first connection fails before it opens; the
    reconnect attempt that follows runs with isLoading still true. *)
Lemma reconnect_with_isLoading_true :
  (fun h => (isLoading (state h), reconnectAttemptsRef h, readyState <$> sockets h !! 1))
    <$> run [WsClose 0; TimerFire 0] (mount "BTC")
  = Some (true, 1, Some CONNECTING).
Proof. reflexivity. Qed.

(** [isLoading_only_falls] on the BTC subscription. *)
Lemma isLoading_only_falls_witness :
  (forall h', step (SymbolChange "ETH") btc_opened = Some h' ->
              isLoading (state h') = false) /\
  (exists h,
      run (consecutive_failures 0 [true; true]) (mount "BTC") = Some h /\
      reconnectAttemptsRef h = 2 /\
      isLoading (state h) = true).
Proof.
  destruct isLoading_only_falls as (_ & _ & Hmono & Hbefore). split.
  - intros h' Hstep.
    apply (Hmono (SymbolChange "ETH") btc_opened h'); [exact Hstep | reflexivity].
  - apply (Hbefore "BTC" [true; true]); [reflexivity | vm_compute; lia].
Defined.

(** ** C6 *)

(** Against C6 as stated: the symbol changes from BTC to ETH after a first
    update; the BTC snapshot and its timestamp are still held. *)
Lemma symbol_change_keeps_data :
  (fun h => (symbol h, snapshot (data (state h)), lastUpdate (state h)))
    <$> step (SymbolChange "ETH") btc_populated
  = Some ("ETH", json sample_snapshot, str "t1").
Proof. reflexivity. Qed.

(** [symbol_change_rebinds] on the populated BTC subscription. *)
Lemma symbol_change_rebinds_witness :
  (exists h2,
      step (SymbolChange "ETH") btc_populated = Some h2 /\
      map readyState (sockets (run_callback cleanup btc_populated)) = [CLOSING] /\
      map readyState (sockets h2) = [CLOSING; CONNECTING] /\
      state h2 = state btc_populated) /\
  (wsRef btc_populated = Some 0 /\
   exists h2,
     step (SymbolChange "ETH") btc_populated = Some h2 /\
     (forall j wj,
         sockets h2 !! j = Some wj ->
         readyState wj = CONNECTING \/ readyState wj = OPEN ->
         j = 1) /\
     no_timer_pending h2 /\
     state h2 = state btc_populated).
Proof.
  destruct symbol_change_rebinds as [Hheld Hfirst]. split.
  - destruct (Hheld "ETH" btc_populated 0
                {| url := "ws://localhost:8000/api/v1/market/radar/ws/BTCUSDT";
                   readyState := OPEN; closure_symbol := "BTC" |})
      as (h2 & Hstep & _ & _ & _ & _ & _ & Hsockets & _ & _ & Hstate);
      [reflexivity | discriminate | reflexivity | reflexivity | now right | reflexivity |].
    exists h2. split; [exact Hstep |]. split; [reflexivity |].
    split; [now rewrite Hsockets | exact Hstate].
  - destruct (Hfirst "BTC" "ETH"
                [WsOpen 0;
                 WsMessage 0 (json_text (update_frame "t1" sample_snapshot JNull JNull JNull))]
                btc_populated 0
                {| url := "ws://localhost:8000/api/v1/market/radar/ws/BTCUSDT";
                   readyState := OPEN; closure_symbol := "BTC" |})
      as (Href & _ & h2 & Hstep & _ & _ & Hone & Hquiet & Hstate);
      [reflexivity | reflexivity | discriminate | reflexivity | now right | reflexivity |].
    split; [exact Href |]. exists h2. repeat split; assumption.
Defined.

(** ** C7 *)

(** Against C7 as stated: a frame of type error that carries no message
    arrives while the server error boom is shown, and on a subscription that
    shows no error; after it error is undefined: no error string is set, and
    the one that was shown is gone. *)
Lemma error_frame_without_message_sets_none :
  has_type error_without_message "error" = true /\
  error (state btc_showing_error) = str "boom" /\
  (fun h => error (state h))
    <$> step (WsMessage 0 (json_text error_without_message)) btc_showing_error
  = Some undefined /\
  (fun h => error (state h))
    <$> step (WsMessage 0 (json_text error_without_message)) btc_opened
  = Some undefined.
Proof. repeat split. Qed.

(** [error_set_and_cleared] on the BTC subscription: a server error on the
    open socket, the close of the sixth connection after five failures, and
    the first open. *)
Lemma error_set_and_cleared_witness :
  (exists h',
      step (WsMessage 0 (json_text (error_frame "boom"))) btc_populated = Some h' /\
      error (state h') = str "boom") /\
  (reconnectAttemptsRef btc_spent = 5 /\
   exists h',
     dispatch_close false 5 btc_spent = Some h' /\
     error (state h') =
       str "Failed to connect after multiple attempts. Please refresh the page.") /\
  (exists h', step (WsOpen 0) (mount "BTC") = Some h' /\ error (state h') = null).
Proof.
  destruct error_set_and_cleared as (Hframe & Hspent & Hopen).
  split; [| split].
  - refine (Hframe 0 _ (error_frame "boom") btc_populated _ _ _); reflexivity.
  - split; [reflexivity |].
    refine (Hspent false 5 _ btc_spent _ _ _);
      [reflexivity | discriminate | vm_compute; lia].
  - refine (Hopen 0 _ (mount "BTC") _ _); reflexivity.
Defined.

(** ** C8 *)

(** Against C8 as stated: an update frame with no timestamp and an empty
    data object matches neither recognized shape, yet it is applied: it wipes
    the four facets and the timestamp and clears the error. *)
Lemma shapeless_update_is_applied :
  spec_recognized (json_text bare_update) = false /\
  state <$> step (WsMessage 0 (json_text bare_update)) btc_showing_error
  = Some {| data := {| snapshot := undefined; anomalies := undefined;
                       tempo := undefined; timeline := undefined |};
            isConnected := true; isLoading := false;
            error := null; lastUpdate := undefined |} /\
  state <$> step (WsMessage 0 (json_text bare_update)) btc_showing_error
  <> Some (state btc_showing_error).
Proof. repeat split. discriminate. Qed.

(** [dropped_frame_changes_nothing] on text that is not JSON, on a frame of
    another type and on an update without data. *)
Lemma dropped_frame_changes_nothing_witness :
  run_callback (onmessage not_json) btc_showing_error = btc_showing_error /\
  run_callback (onmessage (json_text ping_frame)) btc_showing_error = btc_showing_error /\
  (forall h',
      step (WsMessage 0 (json_text update_without_data)) btc_showing_error = Some h' ->
      h' = btc_showing_error).
Proof.
  split; [| split].
  - apply (dropped_frame_changes_nothing not_json btc_showing_error). reflexivity.
  - apply (dropped_frame_changes_nothing (json_text ping_frame) btc_showing_error).
    reflexivity.
  - intros h' Hstep.
    destruct (dropped_frame_changes_nothing (json_text update_without_data)
                btc_showing_error) as [_ Hdropped].
    destruct (Hdropped eq_refl) as [_ Hsame]. apply (Hsame 0 h'). exact Hstep.
Defined.

(** ** C9 *)

(** Against C9 as stated: while the server error boom is shown, an update
    whose data is null arrives; JSON.parse parses it and its type is
    market_radar_update, yet the error is still shown after it. *)
Lemma update_with_null_data_keeps_error :
  JSON_parse (json_text update_with_null_data) btc_showing_error
    = Normal (json update_with_null_data) btc_showing_error /\
  has_type update_with_null_data "market_radar_update" = true /\
  error (state btc_showing_error) = str "boom" /\
  (fun h => error (state h))
    <$> step (WsMessage 0 (json_text update_with_null_data)) btc_showing_error
  = Some (str "boom").
Proof. repeat split. Qed.

(** [update_clears_error] on the BTC subscription while it shows a server
    error: an update with data, and one without. *)
Lemma update_clears_error_witness :
  error (state btc_showing_error) = str "boom" /\
  (exists h',
      step (WsMessage 0 (json_text (update_frame "t2" JNull sample_anomalies JNull JNull)))
        btc_showing_error = Some h' /\
      error (state h') = null /\
      isConnected (state h') = true) /\
  (exists h',
      step (WsMessage 0 (json_text update_without_data)) btc_showing_error = Some h' /\
      h' = btc_showing_error).
Proof.
  split; [reflexivity |]. split.
  - destruct (update_clears_error 0
                {| url := "ws://localhost:8000/api/v1/market/radar/ws/BTCUSDT";
                   readyState := OPEN; closure_symbol := "BTC" |}
                (update_frame "t2" JNull sample_anomalies JNull JNull)
                btc_showing_error)
      as (_ & h' & Hstep & Hdata & _); [reflexivity | reflexivity | reflexivity |].
    destruct (Hdata eq_refl) as (Herr & _ & Hconn).
    exists h'. split; [exact Hstep |]. split; [exact Herr |]. now rewrite Hconn.
  - destruct (update_clears_error 0
                {| url := "ws://localhost:8000/api/v1/market/radar/ws/BTCUSDT";
                   readyState := OPEN; closure_symbol := "BTC" |}
                update_without_data btc_showing_error)
      as (_ & h' & Hstep & _ & Hnone); [reflexivity | reflexivity | reflexivity |].
    exists h'. split; [exact Hstep | now apply Hnone].
Defined.

(** ** C10 *)

(** [connect_url_suffix] on the symbols btc and ethusdt: the first is
    connected as btcUSDT, not as BTCUSDT. *)
Lemma connect_url_suffix_witness :
  wsUrl "btc" = "ws://localhost:8000/api/v1/market/radar/ws/btcUSDT" /\
  wsUrl "ethusdt" = "ws://localhost:8000/api/v1/market/radar/ws/ethusdt" /\
  map url (sockets (run_callback (connect "btc") (initial "btc")))
    = ["ws://localhost:8000/api/v1/market/radar/ws/btcUSDT"].
Proof.
  split; [| split].
  - destruct (connect_url_suffix "btc") as (_ & Hother & _).
    destruct Hother as [Hurl _]; [reflexivity | exact Hurl].
  - destruct (connect_url_suffix "ethusdt") as (Hsame & _ & _).
    destruct Hsame as [Hurl _]; [reflexivity | exact Hurl].
  - destruct (connect_url_suffix "btc") as (_ & _ & Hconnect).
    rewrite (Hconnect (initial "btc")); reflexivity.
Defined.

End Runs.

(** * Further properties of the hook *)

Section MoreProperties.
Context `{Platform}.

(** ** The attempt counter *)

Lemma connect_attempts (sym : string) (h : Hook) :
  reconnectAttemptsRef (run_callback (connect sym) h) = reconnectAttemptsRef h.
Proof.
  destruct (mountedRef h) eqn:Hm; unfold run_callback.
  - destruct (WebSocket_rejects (wsUrl sym)) eqn:Hr.
    + now rewrite connect_rejected.
    + now rewrite connect_accepted.
  - now rewrite connect_unmounted.
Qed.

Lemma onmessage_attempts (event_data : MessageData) (h : Hook) :
  reconnectAttemptsRef (run_callback (onmessage event_data) h) = reconnectAttemptsRef h.
Proof. destruct (onmessage_refs event_data h) as [r ->]. reflexivity. Qed.

Lemma step_attempts_bound (e : Event) (h h' : Hook) :
  step e h = Some h' ->
  reconnectAttemptsRef h <= MAX_RECONNECT_ATTEMPTS ->
  reconnectAttemptsRef h' <= MAX_RECONNECT_ATTEMPTS.
Proof.
  intros Hstep Hle. destruct e as [sym| |ws|ws d|ws|ws|t].
  - apply step_SymbolChange in Hstep as [_ [[_ ->] | [_ ->]]]; [assumption |].
    rewrite effect_eq, connect_attempts. hook_simpl. now rewrite cleanup_eq.
  - apply step_Unmount in Hstep as [_ ->]. now rewrite cleanup_eq.
  - apply step_WsOpen in Hstep as (w & _ & _ & ->). rewrite onopen_eq. hook_simpl. lia.
  - apply step_WsMessage in Hstep as (w & _ & _ & ->). now rewrite onmessage_attempts.
  - destruct (Nat.lt_ge_cases (reconnectAttemptsRef h) MAX_RECONNECT_ATTEMPTS) as [Hlt | Hge].
    + destruct (mountedRef h) eqn:Hm.
      * destruct (close_with_budget false ws h h' Hm Hlt Hstep) as (-> & _). lia.
      * destruct (close_while_unmounted false ws h h' Hm Hstep) as (_ & _ & ->).
        assumption.
    + apply dispatch_close_eq in Hstep as (w & _ & _ & ->).
      rewrite onclose_exhausted by assumption. assumption.
  - destruct (Nat.lt_ge_cases (reconnectAttemptsRef h) MAX_RECONNECT_ATTEMPTS) as [Hlt | Hge].
    + destruct (mountedRef h) eqn:Hm.
      * destruct (close_with_budget true ws h h' Hm Hlt Hstep) as (-> & _). lia.
      * destruct (close_while_unmounted true ws h h' Hm Hstep) as (_ & _ & ->).
        assumption.
    + apply dispatch_close_eq in Hstep as (w & _ & _ & ->).
      rewrite onclose_exhausted by assumption. assumption.
  - apply step_TimerFire in Hstep as (sym & _ & ->). now rewrite connect_attempts.
Qed.

(** X1: in every state the hook reaches from its mount, whatever the
    events (closes, failures, opens, frames, timers, changes of symbol,
    unmount), the attempt counter is at most the maximum. *)
Theorem attempts_never_exceed_maximum (sym : string) (es : list Event) (h : Hook) :
  run es (mount sym) = Some h ->
  reconnectAttemptsRef h <= MAX_RECONNECT_ATTEMPTS.
Proof.
  assert (Hgen : forall es h0 h1,
             reconnectAttemptsRef h0 <= MAX_RECONNECT_ATTEMPTS ->
             run es h0 = Some h1 ->
             reconnectAttemptsRef h1 <= MAX_RECONNECT_ATTEMPTS).
  { clear. intros es. induction es as [|e es IH]; intros h0 h1 Hle Hrun; simpl in Hrun.
    - now injection Hrun as <-.
    - destruct (step e h0) as [h2|] eqn:Hstep; [|discriminate].
      apply (IH h2 h1); [| exact Hrun]. now apply (step_attempts_bound e h0). }
  intros Hrun. apply (Hgen es (mount sym) h); [| exact Hrun].
  unfold mount. rewrite effect_eq, connect_attempts. hook_simpl.
  unfold initial, MAX_RECONNECT_ATTEMPTS. hook_simpl. lia.
Qed.

(** ** What the callbacks do to [isConnected] *)

Lemma onmessage_isConnected (event_data : MessageData) (h : Hook) :
  isConnected (state (run_callback (onmessage event_data) h)) = isConnected (state h).
Proof.
  destruct event_data as [|m]; [reflexivity |].
  destruct (has_type m "market_radar_update") eqn:Hup.
  - destruct (has_data m) eqn:Hd.
    + now rewrite onmessage_update.
    + now rewrite onmessage_update_without_data.
  - destruct (has_type m "error") eqn:Her.
    + now rewrite onmessage_error.
    + now rewrite onmessage_other.
Qed.

Lemma connect_isConnected (sym : string) (h : Hook) :
  isConnected (state (run_callback (connect sym) h)) = isConnected (state h).
Proof. destruct (connect_state sym h) as [-> | ->]; reflexivity. Qed.

Lemma onclose_isConnected (sym : string) (h : Hook) :
  isConnected (state (run_callback (onclose sym) h)) = false /\
  wsRef (run_callback (onclose sym) h) = None.
Proof.
  destruct (onclose_cases sym h) as [[Hm Hlt] | [Hge | [Hm Hlt]]].
  - now rewrite onclose_retry.
  - now rewrite onclose_exhausted.
  - now rewrite onclose_unmounted.
Qed.

(** ** The held data is the latest update *)

Lemma connect_lastUpdate (sym : string) (h : Hook) :
  lastUpdate (state (run_callback (connect sym) h)) = lastUpdate (state h).
Proof. destruct (connect_state sym h) as [-> | ->]; reflexivity. Qed.

Lemma onclose_lastUpdate (sym : string) (h : Hook) :
  lastUpdate (state (run_callback (onclose sym) h)) = lastUpdate (state h).
Proof.
  destruct (onclose_cases sym h) as [[Hm Hlt] | [Hge | [Hm Hlt]]].
  - now rewrite onclose_retry.
  - now rewrite onclose_exhausted.
  - now rewrite onclose_unmounted.
Qed.

Lemma applied_update_None (e : Event) :
  applied_update e = None -> is_update_event e = false.
Proof.
  destruct e as [| | |ws [|m]| | |]; simpl; try reflexivity.
  now destruct (has_type m "market_radar_update" && has_data m).
Qed.

Lemma step_lastUpdate (e : Event) (h h' : Hook) :
  is_update_event e = false ->
  step e h = Some h' ->
  lastUpdate (state h') = lastUpdate (state h).
Proof.
  intros Hne Hstep. destruct e as [sym| |ws|ws d|ws|ws|t].
  - apply step_SymbolChange in Hstep as [_ [[_ ->] | [_ ->]]]; [reflexivity |].
    rewrite effect_eq, connect_lastUpdate. hook_simpl. now rewrite cleanup_state.
  - apply step_Unmount in Hstep as [_ ->]. now rewrite cleanup_state.
  - apply step_WsOpen in Hstep as (w & _ & _ & ->). reflexivity.
  - apply step_WsMessage in Hstep as (w & _ & _ & ->).
    destruct d as [|m]; [reflexivity |]. simpl in Hne.
    destruct (has_type m "market_radar_update") eqn:Hup; simpl in Hne.
    + now rewrite onmessage_update_without_data.
    + destruct (has_type m "error") eqn:Her.
      * now rewrite onmessage_error.
      * now rewrite onmessage_other.
  - apply dispatch_close_eq in Hstep as (w & _ & _ & ->). now rewrite onclose_lastUpdate.
  - apply dispatch_close_eq in Hstep as (w & _ & _ & ->). now rewrite onclose_lastUpdate.
  - apply step_TimerFire in Hstep as (sym & _ & ->). now rewrite connect_lastUpdate.
Qed.

Lemma step_shows (e : Event) (earlier : option JSON) (h h' : Hook) :
  step e h = Some h' ->
  shows earlier (state h) ->
  shows (match applied_update e with
         | Some message => Some message
         | None => earlier
         end) (state h').
Proof.
  intros Hstep Hshows. destruct (applied_update e) as [m|] eqn:Happ.
  - destruct e as [| | |ws [|m']| | |]; try discriminate. simpl in Happ.
    destruct (has_type m' "market_radar_update" && has_data m') eqn:Hup; [|discriminate].
    injection Happ as ->. apply andb_prop in Hup as [Hty Hd].
    apply step_WsMessage in Hstep as (w & _ & _ & ->).
    rewrite onmessage_update by assumption. split; reflexivity.
  - apply applied_update_None in Happ.
    pose proof (step_data e h h' Happ Hstep) as Hdata.
    pose proof (step_lastUpdate e h h' Happ Hstep) as Hlast.
    destruct earlier as [m|]; simpl in *; now rewrite Hdata, Hlast.
Qed.

(** X3: whatever happens to the connection, the data and the lastUpdate
    the hook returns are those of the most recent update frame it has
    applied, and the initial nulls as long as there was none: closes,
    failures, reconnects, error frames, a change of symbol and unmounting
    leave them alone. *)
Theorem data_is_latest_update (sym : string) (es : list Event) (h : Hook) :
  run es (mount sym) = Some h ->
  shows (latest_update None es) (state h).
Proof.
  assert (Hgen : forall es earlier h0 h1,
             shows earlier (state h0) -> run es h0 = Some h1 ->
             shows (latest_update earlier es) (state h1)).
  { clear. intros es. induction es as [|e es IH]; intros earlier h0 h1 Hshows Hrun;
      simpl in Hrun |- *.
    - now injection Hrun as <-.
    - destruct (step e h0) as [h2|] eqn:Hstep; [|discriminate].
      apply (IH _ h2 h1); [| exact Hrun]. now apply (step_shows e earlier h0). }
  intros Hrun. apply (Hgen es None (mount sym) h); [| exact Hrun].
  unfold mount. rewrite effect_eq. simpl.
  now rewrite connect_data, connect_lastUpdate.
Qed.

Lemma alter_closed_after_closing (i : nat) (l : list WebSocket) :
  alter (set_readyState CLOSED) i (alter closing i l) = alter (set_readyState CLOSED) i l.
Proof.
  apply list_eq. intros j. destruct (decide (i = j)) as [<- | Hne].
  - rewrite !list_lookup_alter_eq. destruct (l !! i) as [w|]; [| reflexivity].
    simpl. f_equal. unfold closing, set_readyState. now destruct (readyState w).
  - now rewrite !list_lookup_alter_ne.
Qed.

(** ** A change of symbol and the old socket's close *)

(** X4: the liveness flag is one per hook, and the new effect sets it
    again before the old socket's close event arrives.  So when the symbol
    changes while a socket is not yet closed and the budget is not spent,
    that socket's close event schedules a reconnect for the old symbol:
    after the timer there are two connecting sockets, one for the new symbol
    and one for the old, and wsRef holds the old symbol's.  An unmount then
    calls close on that one only: the new symbol's socket stays connecting. *)
Theorem late_close_reconnects_old_symbol
    (sym' : string) (h : Hook) (i : nat) (w : WebSocket) :
  mountedRef h = true ->
  sym' <> symbol h ->
  wsRef h = Some i ->
  sockets h !! i = Some w ->
  readyState w <> CLOSED ->
  reconnectAttemptsRef h < MAX_RECONNECT_ATTEMPTS ->
  WebSocket_rejects (wsUrl sym') = false ->
  WebSocket_rejects (wsUrl (closure_symbol w)) = false ->
  exists h' h'',
    run [SymbolChange sym'; WsClose i; TimerFire (length (timers h))] h = Some h' /\
    sockets h' =
      alter (set_readyState CLOSED) i (sockets h) ++
        [{| url := wsUrl sym'; readyState := CONNECTING; closure_symbol := sym' |};
         {| url := wsUrl (closure_symbol w); readyState := CONNECTING;
            closure_symbol := closure_symbol w |}] /\
    wsRef h' = Some (S (length (sockets h))) /\
    symbol h' = sym' /\
    step Unmount h' = Some h'' /\
    sockets h'' !! length (sockets h) =
      Some {| url := wsUrl sym'; readyState := CONNECTING; closure_symbol := sym' |}.
Proof.
  intros Hm Hne Href Hw Hopen Hlt Hok' Hok.
  assert (Hi : i < length (sockets h)) by (now apply lookup_lt_Some with w).
  (* the change of symbol *)
  pose proof (SymbolChange_runs sym' h Hm Hne) as Hstep1.
  set (h1 := run_callback (connect sym') _) in Hstep1.
  assert (Heq1 : h1 =
            set_wsRef (Some (length (sockets h)))
              (set_sockets
                 (alter closing i (sockets h) ++
                    [{| url := wsUrl sym'; readyState := CONNECTING;
                        closure_symbol := sym' |}])
                 (set_mountedRef true (set_symbol sym' (run_callback cleanup h))))).
  { subst h1. unfold run_callback at 1.
    rewrite connect_accepted by (first [assumption | reflexivity]).
    rewrite cleanup_eq. hook_simpl. rewrite Href, length_alter. reflexivity. }
  (* the old socket's close *)
  assert (Hw1 : sockets h1 !! i = Some (closing w)).
  { rewrite Heq1. hook_simpl. rewrite lookup_app_l by (now rewrite length_alter).
    now rewrite list_lookup_alter_eq, Hw. }
  assert (Hopen1 : readyState (closing w) <> CLOSED).
  { unfold closing. destruct (readyState w) eqn:Hr; simpl; congruence. }
  pose proof (close_runs false i (closing w) h1 Hw1 Hopen1) as Hstep2.
  replace (closure_symbol (closing w)) with (closure_symbol w) in Hstep2
    by (unfold closing; now destruct (readyState w)).
  hook_simpl.
  rewrite onclose_retry in Hstep2;
    [| rewrite Heq1; reflexivity | rewrite Heq1, cleanup_eq; exact Hlt].
  set (h2 := set_reconnectTimeoutRef _ _) in Hstep2.
  assert (Htimers1 : length (timers h1) = length (timers h)).
  { rewrite Heq1, cleanup_eq. hook_simpl.
    destruct (reconnectTimeoutRef h); [apply length_alter | reflexivity]. }
  (* the timer *)
  assert (Hp : timers h2 !! length (timers h) = Some (Some (closure_symbol w))).
  { subst h2. hook_simpl. rewrite <- Htimers1. apply list_lookup_middle. reflexivity. }
  pose proof (TimerFire_runs _ _ h2 Hp) as Hstep3.
  unfold run_callback at 1 in Hstep3.
  rewrite connect_accepted in Hstep3;
    [| subst h2; rewrite Heq1; reflexivity | assumption].
  set (h3 := set_wsRef _ _) in Hstep3.
  assert (Hsockets3 : sockets h3 =
            alter (set_readyState CLOSED) i (sockets h) ++
              [{| url := wsUrl sym'; readyState := CONNECTING; closure_symbol := sym' |};
               {| url := wsUrl (closure_symbol w); readyState := CONNECTING;
                  closure_symbol := closure_symbol w |}]).
  { subst h3 h2. hook_simpl. rewrite Heq1. hook_simpl.
    rewrite alter_app_l by (now rewrite length_alter).
    rewrite alter_closed_after_closing, <- app_assoc. reflexivity. }
  assert (Href3 : wsRef h3 = Some (S (length (sockets h)))).
  { subst h3 h2. hook_simpl. rewrite Heq1. hook_simpl.
    rewrite length_alter, length_app, length_alter. simpl. f_equal. lia. }
  assert (Hm3 : mountedRef h3 = true) by (subst h3 h2; rewrite Heq1; reflexivity).
  exists h3, (run_callback cleanup h3).
  split.
  { cbn [run]. rewrite Hstep1.
    change (step (WsClose i) h1) with (dispatch_close false i h1).
    now rewrite Hstep2, Hstep3. }
  split; [exact Hsockets3 |]. split; [exact Href3 |].
  split; [subst h3 h2; rewrite Heq1; reflexivity |].
  split; [unfold step; now rewrite Hm3 |].
  rewrite cleanup_eq. hook_simpl. rewrite Href3, Hsockets3.
  rewrite list_lookup_alter_ne by lia.
  rewrite lookup_app_r by (rewrite length_alter; lia).
  rewrite length_alter, Nat.sub_diag. reflexivity.
Qed.

(** ** After the unmount *)

Lemma unmount_torn_down (h : Hook) :
  one_subscription h -> torn_down (run_callback cleanup h).
Proof.
  intros [Hm Hs Ht]. split.
  - now rewrite cleanup_eq.
  - apply cleanup_no_timer_pending. intros t sym Hp. now destruct (Ht _ _ Hp).
  - rewrite cleanup_eq. hook_simpl. intros j w Hw.
    destruct (wsRef h) as [i|] eqn:Href.
    + destruct (decide (i = j)) as [<- | Hne].
      * rewrite list_lookup_alter_eq in Hw.
        destruct (sockets h !! i) as [w0|]; [| discriminate].
        injection Hw as <-. unfold closing_or_closed, closing.
        now destruct (readyState w0) eqn:Hr; simpl; rewrite ?Hr.
      * rewrite list_lookup_alter_ne in Hw by assumption.
        unfold closing_or_closed. destruct (readyState w) eqn:Hr; try reflexivity;
          exfalso; assert (Hopen : readyState w <> CLOSED) by congruence;
          pose proof (Hs _ _ Hw Hopen); congruence.
    + unfold closing_or_closed. destruct (readyState w) eqn:Hr; try reflexivity;
        exfalso; assert (Hopen : readyState w <> CLOSED) by congruence;
        pose proof (Hs _ _ Hw Hopen); congruence.
Qed.

Lemma step_torn_down (e : Event) (h h' : Hook) :
  torn_down h ->
  is_transport_event e = true ->
  step e h = Some h' ->
  torn_down h' /\ length (sockets h') = length (sockets h) /\
  exists ws, e = WsClose ws \/ e = WsFail ws.
Proof.
  intros [Hm Ht Hs] He Hstep.
  assert (Hclose : forall failed ws,
             dispatch_close failed ws h = Some h' ->
             torn_down h' /\ length (sockets h') = length (sockets h)).
  { intros failed ws Hd.
    destruct (close_while_unmounted failed ws h h' Hm Hd) as (Hlen & Htim & _).
    split; [| exact Hlen].
    apply dispatch_close_eq in Hd as (w & Hw & _ & ->).
    set (h1 := (if failed then setError _ else id) _) in *.
    assert (Hm1 : mountedRef h1 = false) by (subst h1; now destruct failed).
    assert (Hs1 : sockets h1 = alter (set_readyState CLOSED) ws (sockets h))
      by (subst h1; now destruct failed).
    assert (Hsame : mountedRef (run_callback (onclose (closure_symbol w)) h1) = false /\
                    sockets (run_callback (onclose (closure_symbol w)) h1) = sockets h1).
    { destruct (onclose_cases (closure_symbol w) h1) as [[Hm' _] | [Hge | [_ Hlt]]].
      - congruence.
      - now rewrite onclose_exhausted.
      - now rewrite onclose_unmounted. }
    destruct Hsame as [Hm2 Hs2]. split.
    - exact Hm2.
    - intros t sym Hp. rewrite Htim in Hp. now apply (Ht t sym).
    - rewrite Hs2, Hs1. intros j w' Hw'. destruct (decide (ws = j)) as [<- | Hne].
      + rewrite list_lookup_alter_eq, Hw in Hw'. now injection Hw' as <-.
      + rewrite list_lookup_alter_ne in Hw' by assumption. now apply (Hs j). }
  destruct e as [sym| |ws|ws d|ws|ws|t]; try discriminate.
  - apply step_WsOpen in Hstep as (w & Hw & Hc & _).
    pose proof (Hs _ _ Hw) as Hcc. unfold closing_or_closed in Hcc.
    rewrite Hc in Hcc. discriminate.
  - apply step_WsMessage in Hstep as (w & Hw & Hc & _).
    pose proof (Hs _ _ Hw) as Hcc. unfold closing_or_closed in Hcc.
    rewrite Hc in Hcc. discriminate.
  - destruct (Hclose false ws Hstep) as [Htd Hlen]. eauto.
  - destruct (Hclose true ws Hstep) as [Htd Hlen]. eauto.
  - apply step_TimerFire in Hstep as (sym & Hp & _). now destruct (Ht _ _ Hp).
Qed.

(** X5: after the component is unmounted in the course of one
    subscription, the hook never makes another socket and never sets another
    timer: close has been called on every socket, no timer is pending, and
    the only events that can still reach the hook are close events. *)
Theorem unmount_is_final (h h' : Hook) (es : list Event) :
  one_subscription h ->
  forallb is_transport_event es = true ->
  run (Unmount :: es) h = Some h' ->
  length (sockets h') = length (sockets h) /\
  torn_down h' /\
  Forall (fun e => exists ws, e = WsClose ws \/ e = WsFail ws) es.
Proof.
  intros Hinv Hes Hrun. cbn [run] in Hrun.
  destruct (step Unmount h) as [h0|] eqn:Hstep; [|discriminate].
  apply step_Unmount in Hstep as [_ ->].
  assert (Hlen0 : length (sockets (run_callback cleanup h)) = length (sockets h)).
  { rewrite cleanup_eq. hook_simpl. destruct (wsRef h); [apply length_alter | reflexivity]. }
  rewrite <- Hlen0. pose proof (unmount_torn_down h Hinv) as Htd.
  clear Hlen0 Hinv. revert Htd Hes Hrun. generalize (run_callback cleanup h).
  induction es as [|e es IH]; intros h0 Htd Hes Hrun; simpl in Hrun, Hes.
  - injection Hrun as <-. auto.
  - apply andb_prop in Hes as [He Hes].
    destruct (step e h0) as [h1|] eqn:Hstep; [|discriminate].
    destruct (step_torn_down e h0 h1 Htd He Hstep) as (Htd1 & Hlen1 & Hkind).
    destruct (IH h1 Htd1 Hes Hrun) as (Hlen & Htd' & Hall).
    split; [congruence |]. split; [exact Htd' |]. now constructor.
Qed.

(** ** The budget across subscriptions *)

(** X6: the attempt counter belongs to the hook, not to the
    subscription: a change of symbol leaves it as it is.  So when the budget
    was spent on the old symbol, the first close of the new symbol's socket
    (before it has opened) gives up at once, without any reconnect. *)
Theorem budget_survives_symbol_change (sym : string) (failed : bool) (h : Hook) :
  mountedRef h = true ->
  sym <> symbol h ->
  MAX_RECONNECT_ATTEMPTS <= reconnectAttemptsRef h ->
  WebSocket_rejects (wsUrl sym) = false ->
  exists h1 h2,
    step (SymbolChange sym) h = Some h1 /\
    reconnectAttemptsRef h1 = reconnectAttemptsRef h /\
    sockets h1 !! length (sockets h) =
      Some {| url := wsUrl sym; readyState := CONNECTING; closure_symbol := sym |} /\
    step (close_event failed (length (sockets h))) h1 = Some h2 /\
    error (state h2) =
      str "Failed to connect after multiple attempts. Please refresh the page." /\
    timers h2 = timers h1 /\
    wsRef h2 = None.
Proof.
  intros Hm Hne Hge Hok.
  pose proof (SymbolChange_runs sym h Hm Hne) as Hstep1.
  unfold run_callback at 1 in Hstep1.
  rewrite connect_accepted in Hstep1 by (first [assumption | reflexivity]).
  set (h1 := set_wsRef _ _) in Hstep1.
  assert (Hlen : length (sockets (run_callback cleanup h)) = length (sockets h)).
  { rewrite cleanup_eq. hook_simpl. destruct (wsRef h); [apply length_alter | reflexivity]. }
  assert (Hatt1 : reconnectAttemptsRef h1 = reconnectAttemptsRef h)
    by (subst h1; hook_simpl; now rewrite cleanup_eq).
  assert (Hw1 : sockets h1 !! length (sockets h) =
            Some {| url := wsUrl sym; readyState := CONNECTING; closure_symbol := sym |}).
  { subst h1. hook_simpl. rewrite <- Hlen. apply list_lookup_middle. reflexivity. }
  assert (Hd : exists h2, dispatch_close failed (length (sockets h)) h1 = Some h2).
  { rewrite (close_runs failed _ _ h1 Hw1) by discriminate. eauto. }
  destruct Hd as [h2 Hd].
  destruct (close_without_budget failed (length (sockets h)) h1 h2)
    as (Herr & Htim & _ & Href);
    [now rewrite Hatt1 | exact Hd |].
  exists h1, h2. split; [exact Hstep1 |]. split; [exact Hatt1 |].
  split; [exact Hw1 |]. split; [now destruct failed |]. auto.
Qed.

(** ** The declared types *)

Lemma spec_update_shape_facts (message : JSON) :
  spec_update_shape message = true ->
  has_type message "market_radar_update" = true /\
  has_data message = true /\
  is_string (member (json message) f_timestamp) = true /\
  is_object_or_null (snapshot (frame_data message)) = true /\
  is_object_or_null (anomalies (frame_data message)) = true /\
  is_object_or_null (tempo (frame_data message)) = true /\
  is_object_or_null (timeline (frame_data message)) = true.
Proof.
  unfold spec_update_shape, frame_data. intros Hs.
  apply andb_prop in Hs as [Hs Hfacets]. apply andb_prop in Hs as [Hty Hts].
  destruct (member (json message) f_data) as [|[| | | | |ms]] eqn:Hd; try discriminate.
  apply andb_prop in Hfacets as [Hfacets Hti].
  apply andb_prop in Hfacets as [Hfacets Hte].
  apply andb_prop in Hfacets as [Hsn Han].
  repeat split; try assumption.
  unfold has_data. unfold member in Hd.
  destruct (get_property (json message) f_data) as [v|]; [| discriminate].
  now subst v.
Qed.

Lemma spec_error_shape_facts (message : JSON) :
  spec_error_shape message = true ->
  has_type message "market_radar_update" = false /\
  has_type message "error" = true /\
  is_string (member (json message) f_message) = true.
Proof.
  unfold spec_error_shape. intros Hs. apply andb_prop in Hs as [Hty Hm].
  split; [now apply has_type_exclusive | now split].
Qed.

Lemma is_string_string_or_null (v : Value) :
  is_string v = true -> is_string_or_null v = true.
Proof. now destruct v as [|[]]. Qed.

Lemma as_declared_ext (r r' : UseMarketRadarWebSocketReturn) :
  data r' = data r -> lastUpdate r' = lastUpdate r ->
  is_string_or_null (error r') = true ->
  as_declared r = true -> as_declared r' = true.
Proof.
  unfold as_declared. intros -> -> ->. intros Hr.
  apply andb_prop in Hr as [Hr Hl]. apply andb_prop in Hr as [Hr _].
  rewrite Hr, Hl. reflexivity.
Qed.

Lemma as_declared_error (r : UseMarketRadarWebSocketReturn) :
  as_declared r = true -> is_string_or_null (error r) = true.
Proof.
  unfold as_declared. intros Hr.
  apply andb_prop in Hr as [Hr _]. now apply andb_prop in Hr as [_ He].
Qed.

Lemma connect_error (sym : string) (h : Hook) :
  is_string_or_null (error (state h)) = true ->
  is_string_or_null (error (state (run_callback (connect sym) h))) = true.
Proof. intros He. destruct (connect_state sym h) as [-> | ->]; [exact He | reflexivity]. Qed.

Lemma onclose_error (sym : string) (h : Hook) :
  is_string_or_null (error (state h)) = true ->
  is_string_or_null (error (state (run_callback (onclose sym) h))) = true.
Proof.
  intros He. destruct (onclose_cases sym h) as [[Hm Hlt] | [Hge | [Hm Hlt]]].
  - now rewrite onclose_retry.
  - now rewrite onclose_exhausted.
  - now rewrite onclose_unmounted.
Qed.

Lemma step_as_declared (e : Event) (h h' : Hook) :
  conforming e = true ->
  step e h = Some h' ->
  as_declared (state h) = true ->
  as_declared (state h') = true.
Proof.
  intros Hc Hstep Hr. pose proof (as_declared_error _ Hr) as He.
  destruct e as [sym| |ws|ws d|ws|ws|t].
  - apply (as_declared_ext (state h));
      [now apply (step_data (SymbolChange sym))
      | now apply (step_lastUpdate (SymbolChange sym)) | | exact Hr].
    apply step_SymbolChange in Hstep as [_ [[_ ->] | [_ ->]]]; [exact He |].
    rewrite effect_eq. apply connect_error. hook_simpl. now rewrite cleanup_state.
  - apply step_Unmount in Hstep as [_ ->]. now rewrite cleanup_state.
  - apply step_WsOpen in Hstep as (w & _ & _ & ->).
    apply (as_declared_ext (state h)); try reflexivity. exact Hr.
  - apply step_WsMessage in Hstep as (w & _ & _ & ->). simpl in Hc.
    destruct (dropped d) eqn:Hdrop; [now rewrite onmessage_dropped |].
    destruct d as [|m]; [discriminate |]. simpl in Hc.
    apply orb_prop in Hc as [Hup | Herr].
    + destruct (spec_update_shape_facts m Hup)
        as (Hty & Hd & Hts & Hsn & Han & Hte & Hti).
      rewrite onmessage_update by assumption.
      unfold as_declared. hook_simpl. fold (frame_data m).
      rewrite Hsn, Han, Hte, Hti. simpl. now apply is_string_string_or_null.
    + destruct (spec_error_shape_facts m Herr) as (Hup & Hty & Hm).
      rewrite onmessage_error by assumption.
      apply (as_declared_ext (state h)); try reflexivity; [| exact Hr].
      hook_simpl. now apply is_string_string_or_null.
  - pose proof Hstep as Hstep'. apply dispatch_close_eq in Hstep' as (w & _ & _ & ->).
    apply (as_declared_ext (state h));
      [now apply (step_data (WsClose ws))
      | now apply (step_lastUpdate (WsClose ws)) | | exact Hr].
    now apply onclose_error.
  - pose proof Hstep as Hstep'. apply dispatch_close_eq in Hstep' as (w & _ & _ & ->).
    apply (as_declared_ext (state h));
      [now apply (step_data (WsFail ws))
      | now apply (step_lastUpdate (WsFail ws)) | | exact Hr].
    now apply onclose_error.
  - pose proof Hstep as Hstep'. apply step_TimerFire in Hstep' as (sym & _ & ->).
    apply (as_declared_ext (state h));
      [now apply (step_data (TimerFire t))
      | now apply (step_lastUpdate (TimerFire t)) | | exact Hr].
    now apply connect_error.
Qed.

(** X7: as long as every frame received is one the handler drops or has
    one of the two shapes of the protocol, what the hook returns stays within
    its declared interfaces: each facet is an object or null, and error and
    lastUpdate are strings or null.  In particular no facet is ever
    undefined, which is the one value on which the dashboard's cards would
    start polling over HTTP. *)
Theorem result_as_declared (sym : string) (es : list Event) (h : Hook) :
  forallb conforming es = true ->
  run es (mount sym) = Some h ->
  as_declared (state h) = true /\
  http_fallback (snapshot (data (state h))) = false /\
  http_fallback (anomalies (data (state h))) = false /\
  http_fallback (tempo (data (state h))) = false /\
  http_fallback (timeline (data (state h))) = false.
Proof.
  assert (Hgen : forall es h0 h1,
             as_declared (state h0) = true ->
             forallb conforming es = true ->
             run es h0 = Some h1 -> as_declared (state h1) = true).
  { clear. intros es. induction es as [|e es IH]; intros h0 h1 Hr Hes Hrun;
      simpl in Hrun, Hes.
    - now injection Hrun as <-.
    - apply andb_prop in Hes as [He Hes].
      destruct (step e h0) as [h2|] eqn:Hstep; [|discriminate].
      apply (IH h2 h1); try assumption. now apply (step_as_declared e h0). }
  intros Hes Hrun.
  assert (Hr : as_declared (state h) = true).
  { apply (Hgen es (mount sym) h); try assumption.
    unfold mount. rewrite effect_eq.
    apply (as_declared_ext (state (initial sym)));
      [apply connect_data | apply connect_lastUpdate | | reflexivity].
    now apply connect_error. }
  split; [exact Hr |]. unfold as_declared in Hr.
  apply andb_prop in Hr as [Hr _]. apply andb_prop in Hr as [Hr _].
  apply andb_prop in Hr as [Hr Hti]. apply andb_prop in Hr as [Hr Hte].
  apply andb_prop in Hr as [Hsn Han].
  repeat split.
  - now destruct (snapshot (data (state h))).
  - now destruct (anomalies (data (state h))).
  - now destruct (tempo (data (state h))).
  - now destruct (timeline (data (state h))).
Qed.

(** ** The status text *)

Lemma step_isConnected_rise (e : Event) (h h' : Hook) :
  step e h = Some h' ->
  isConnected (state h') = true ->
  isConnected (state h) = true \/ isLoading (state h') = false.
Proof.
  intros Hstep Hc. destruct e as [sym| |ws|ws d|ws|ws|t].
  - left. apply step_SymbolChange in Hstep as [_ [[_ ->] | [_ ->]]]; [exact Hc |].
    rewrite effect_eq, connect_isConnected in Hc. hook_simpl.
    now rewrite cleanup_state in Hc.
  - left. apply step_Unmount in Hstep as [_ ->]. now rewrite cleanup_state in Hc.
  - right. apply step_WsOpen in Hstep as (w & _ & _ & ->). reflexivity.
  - left. apply step_WsMessage in Hstep as (w & _ & _ & ->).
    now rewrite onmessage_isConnected in Hc.
  - apply dispatch_close_eq in Hstep as (w & _ & _ & ->).
    destruct (onclose_isConnected (closure_symbol w)
                (id (set_sockets (alter (set_readyState CLOSED) ws (sockets h)) h)))
      as [Hoff _]. congruence.
  - apply dispatch_close_eq in Hstep as (w & _ & _ & ->).
    destruct (onclose_isConnected (closure_symbol w)
                (setError (str "WebSocket connection error")
                   (set_sockets (alter (set_readyState CLOSED) ws (sockets h)) h)))
      as [Hoff _]. congruence.
  - left. apply step_TimerFire in Hstep as (sym & _ & ->).
    now rewrite connect_isConnected in Hc.
Qed.

Lemma run_connected_not_loading (es : list Event) (h h' : Hook) :
  (isConnected (state h) = true -> isLoading (state h) = false) ->
  run es h = Some h' ->
  isConnected (state h') = true -> isLoading (state h') = false.
Proof.
  revert h. induction es as [|e es IH]; intros h Hj Hrun; simpl in Hrun.
  - now injection Hrun as <-.
  - destruct (step e h) as [h1|] eqn:Hstep; [|discriminate].
    apply (IH h1); [| exact Hrun]. intros Hc.
    destruct (step_isConnected_rise e h h1 Hstep Hc) as [Hbefore | Hdone];
      [| exact Hdone].
    apply (step_isLoading e h h1 Hstep). now apply Hj.
Qed.

Lemma run_isLoading (es : list Event) (h h' : Hook) :
  run es h = Some h' ->
  isLoading (state h) = false -> isLoading (state h') = false.
Proof.
  revert h. induction es as [|e es IH]; intros h Hrun Hl; simpl in Hrun.
  - now injection Hrun as <-.
  - destruct (step e h) as [h1|] eqn:Hstep; [|discriminate].
    apply (IH h1); [exact Hrun |]. now apply (step_isLoading e h).
Qed.

(** X8: the dashboard's status text reads "Connecting..." only until it
    first reads something else: once a state reached from the mount shows
    another text, no later event (reconnects and changes of symbol included)
    brings "Connecting..." back. *)
Theorem status_never_back_to_connecting
    (sym : string) (es1 es2 : list Event) (h1 h2 : Hook) :
  run es1 (mount sym) = Some h1 ->
  run es2 h1 = Some h2 ->
  connection_status (state h1) <> "Connecting..." ->
  connection_status (state h2) <> "Connecting...".
Proof.
  intros Hrun1 Hrun2 Hstatus.
  assert (Hj : isConnected (state h1) = true -> isLoading (state h1) = false).
  { apply (run_connected_not_loading es1 (mount sym)); [| exact Hrun1].
    unfold mount. rewrite effect_eq, connect_isConnected. discriminate. }
  assert (Hl : isLoading (state h1) = false).
  { destruct (isConnected (state h1)) eqn:Hc; [now apply Hj |].
    unfold connection_status in Hstatus. rewrite Hc in Hstatus.
    destruct (isLoading (state h1)); [now destruct Hstatus | reflexivity]. }
  pose proof (run_isLoading es2 h1 h2 Hrun2 Hl) as Hl2.
  unfold connection_status. rewrite Hl2.
  destruct (isConnected (state h2)); discriminate.
Qed.

End MoreProperties.

(** * Properties of the chat page *)

Section ChatProperties.
Import Chat.
Context `{Trim}.

Lemma append_nil_r (a : string) : a +:+ "" = a.
Proof. induction a as [|c a IH]; [reflexivity |]. rewrite append_cons. now rewrite IH. Qed.

(** ** The updater of the streaming loop *)

Lemma update_last_snoc (f : Message -> Message) (ms : list Message) (m : Message) :
  update_last_assistant f (ms ++ [m]) =
    ms ++ [match role m with assistant => f m | user => m end].
Proof.
  unfold update_last_assistant. rewrite length_app. simpl.
  replace (length ms + 1 - 1) with (length ms) by lia.
  rewrite list_lookup_middle by reflexivity.
  destruct (role m); [reflexivity |].
  replace (length ms) with (length ms + 0) at 1 by lia.
  now rewrite insert_app_r.
Qed.

Lemma update_last_app (f : Message -> Message) (ms tail : list Message) :
  tail <> [] ->
  update_last_assistant f (ms ++ tail) = ms ++ update_last_assistant f tail.
Proof.
  intros Ht. destruct tail as [|m0 t0 _] using rev_ind; [contradiction |].
  now rewrite app_assoc, !update_last_snoc, app_assoc.
Qed.

Lemma update_last_length (f : Message -> Message) (ms : list Message) :
  length (update_last_assistant f ms) = length ms.
Proof.
  unfold update_last_assistant.
  destruct (ms !! (length ms - 1)) as [m|]; [| reflexivity].
  destruct (role m); [reflexivity | apply length_insert].
Qed.

(** The updater leaves every user message, and every message but the
    last, as it is. *)
Lemma update_last_final (f : Message -> Message) (ms : list Message) (i : nat) (m : Message) :
  ms !! i = Some m ->
  role m = user \/ S i < length ms ->
  update_last_assistant f ms !! i = Some m.
Proof.
  intros Hi Hr. unfold update_last_assistant.
  destruct (ms !! (length ms - 1)) as [l|] eqn:Hl; [| exact Hi].
  destruct (role l) eqn:Hrl; [exact Hi |].
  rewrite list_lookup_insert_ne; [exact Hi |].
  intros <-. destruct Hr as [Hr | Hr]; [congruence | lia].
Qed.

(** ** Lists that end in known elements *)

Lemma lookup_end_0 {A} (l tail : list A) : (l ++ tail) !! length l = tail !! 0.
Proof. rewrite lookup_app_r by lia. f_equal. lia. Qed.

Lemma lookup_end_1 {A} (l tail : list A) : (l ++ tail) !! S (length l) = tail !! 1.
Proof. rewrite lookup_app_r by lia. f_equal. lia. Qed.

Lemma alter_end_0 {A} (f : A -> A) (l tail : list A) :
  alter f (length l) (l ++ tail) = l ++ alter f 0 tail.
Proof. replace (length l) with (length l + 0) at 1 by lia. apply alter_app_r. Qed.

Lemma alter_end_1 {A} (f : A -> A) (l tail : list A) :
  alter f (S (length l)) (l ++ tail) = l ++ alter f 1 tail.
Proof. replace (S (length l)) with (length l + 1) by lia. apply alter_app_r. Qed.

(** ** Events *)

(** One event on a page whose fields are known, up to a prefix of its
    messages and of its calls. *)
Lemma run_cons (e : Event) (es : list Event) (p : Page) :
  run (e :: es) p = match step e p with Some p' => run es p' | None => None end.
Proof. reflexivity. Qed.

Lemma run_nil (p : Page) : run [] p = Some p.
Proof. reflexivity. Qed.

Ltac chat_step Hinput :=
  cbn [app map]; try rewrite run_cons; unfold step at 1; unfold sendMessage;
  cbn [messages input isLoading selectedSymbol chatSessions currentSessionId calls];
  rewrite ?Hinput, ?lookup_end_0, ?lookup_end_1;
  cbn [lookup list_lookup fmap option_fmap option_map progress];
  unfold resume, sendMessage_response, sendMessage_catch,
    sendMessage_chunk, sendMessage_done, createNewChat, switchSession,
    setMessages, setInput, setIsLoading, setSelectedSymbol, setChatSessions,
    setCurrentSessionId, set_calls;
  cbn [messages input isLoading selectedSymbol chatSessions currentSessionId calls
       fst snd negb id];
  rewrite <- ?app_assoc; cbn [app];
  rewrite ?alter_end_0, ?alter_end_1, ?update_last_app by discriminate;
  cbn [alter list_alter update_last_assistant length Nat.sub lookup list_lookup
       role insert list_insert];
  unfold set_progress, set_content, set_timestamp;
  cbn [request progress role content timestamp];
  rewrite ?run_nil.

Lemma run_app (es1 es2 : list Event) (a b : Page) :
  run es1 a = Some b -> run (es1 ++ es2) a = run es2 b.
Proof.
  revert a. induction es1 as [|e es1 IH]; intros a Hr; simpl in *.
  - now injection Hr as <-.
  - destruct (step e a); [now apply IH | discriminate].
Qed.

(** The chunks of one call, with nothing in between: the call is the
    last one made and the message it appended is the last one shown. *)
Lemma chunks_run (req : ChatRequest) (chunks : list string) :
  forall (acc : string) (ms : list Message) (text : string) (cs : list Call)
         (inp : string) (l : bool) (sym : string) (ss : list ChatSession) (cur : string),
    run (map (Chunk (length cs)) chunks)
      {| messages := ms ++ [{| role := assistant; content := text; timestamp := None |}];
         input := inp; isLoading := l; selectedSymbol := sym; chatSessions := ss;
         currentSessionId := cur;
         calls := cs ++ [{| request := req; progress := reading acc |}] |}
    = Some
      {| messages :=
           ms ++ [{| role := assistant;
                     content := match chunks with [] => text | _ => acc +:+ join chunks end;
                     timestamp := None |}];
         input := inp; isLoading := l; selectedSymbol := sym; chatSessions := ss;
         currentSessionId := cur;
         calls := cs ++ [{| request := req; progress := reading (acc +:+ join chunks) |}] |}.
Proof.
  induction chunks as [|chunk chunks IH]; intros acc ms text cs inp l sym ss cur.
  - simpl. now rewrite append_nil_r.
  - chat_step I. rewrite IH. simpl. rewrite <- append_assoc.
    destruct chunks; [| reflexivity]. simpl. now rewrite !append_nil_r.
Qed.

(** A response that is ok and has a body, and the chunks read from it,
    for the call made last. *)
Lemma respond_and_read (req : ChatRequest) (chunks : list string) (rest : list Event)
    (ms : list Message) (cs : list Call) (inp : string) (l : bool) (sym : string)
    (ss : list ChatSession) (cur : string) :
  run (Responded (length cs) true true :: map (Chunk (length cs)) chunks ++ rest)
    {| messages := ms; input := inp; isLoading := l; selectedSymbol := sym;
       chatSessions := ss; currentSessionId := cur;
       calls := cs ++ [{| request := req; progress := awaiting_response |}] |}
  = run rest
    {| messages := ms ++ [{| role := assistant; content := join chunks; timestamp := None |}];
       input := inp; isLoading := false; selectedSymbol := sym; chatSessions := ss;
       currentSessionId := cur;
       calls := cs ++ [{| request := req; progress := reading (join chunks) |}] |}.
Proof.
  chat_step I. erewrite run_app by apply chunks_run. destruct chunks; reflexivity.
Qed.

(** X9: an exchange that nothing interrupts.  With a non-blank input,
    sending posts the input as typed, the selected symbol followed by
    USDT, and the messages shown before; when the response is ok and its
    body has been read to the end, the page shows, after what it showed
    before, the user's message and one assistant message whose content is the
    chunks in the order received, stamped with the time the body ended; the
    input is empty and the page is not loading. *)
Theorem exchange_streams_in_order (now now' : string) (chunks : list string) (p : Page) :
  trim (input p) <> "" ->
  exists p',
    run ([Send now; Responded (length (calls p)) true true]
           ++ map (Chunk (length (calls p))) chunks
           ++ [Done (length (calls p)) now']) p = Some p' /\
    messages p' =
      messages p ++
        [{| role := user; content := input p; timestamp := Some now |};
         {| role := assistant; content := join chunks; timestamp := Some now' |}] /\
    calls p' =
      calls p ++
        [{| request := {| message := input p; symbol := selectedSymbol p +:+ "USDT";
                          conversation_history := messages p |};
            progress := settled |}] /\
    input p' = "" /\
    isLoading p' = false.
Proof.
  intros Hinput. apply String.eqb_neq in Hinput.
  destruct p as [ms inp l sym ss cur cs]. simpl in Hinput.
  eexists. split.
  - chat_step Hinput.
    rewrite respond_and_read.
    chat_step Hinput. reflexivity.
  - cbn [messages calls input isLoading]. auto.
Qed.

(** X10: an exchange that fails.  With a non-blank input, if the request
    is rejected, or answered with a response that is not ok, the page shows
    the user's message followed by the apology; if the response is ok and the
    body breaks off after some chunks, the page shows the user's message, the
    part of the answer received, which never gets a timestamp, and then the
    apology.  In each case the page is not loading and the call is over. *)
Theorem failed_exchange_apologises (now : string) (has_body : bool)
    (chunks : list string) (p : Page) :
  trim (input p) <> "" ->
  (exists p',
      run [Send now; Rejected (length (calls p))] p = Some p' /\
      run [Send now; Responded (length (calls p)) false has_body] p = Some p' /\
      messages p' =
        messages p ++
          [{| role := user; content := input p; timestamp := Some now |}; errorMessage] /\
      isLoading p' = false /\
      progress <$> calls p' !! length (calls p) = Some settled) /\
  (exists p',
      run ([Send now; Responded (length (calls p)) true true]
             ++ map (Chunk (length (calls p))) chunks
             ++ [Rejected (length (calls p))]) p = Some p' /\
      messages p' =
        messages p ++
          [{| role := user; content := input p; timestamp := Some now |};
           {| role := assistant; content := join chunks; timestamp := None |};
           errorMessage] /\
      isLoading p' = false /\
      progress <$> calls p' !! length (calls p) = Some settled).
Proof.
  intros Hinput. apply String.eqb_neq in Hinput.
  destruct p as [ms inp l sym ss cur cs]. simpl in Hinput. split.
  - eexists. split; [| split].
    + chat_step Hinput. chat_step Hinput. reflexivity.
    + chat_step Hinput. chat_step Hinput. reflexivity.
    + cbn [messages calls isLoading]. now rewrite lookup_end_0.
  - eexists. split.
    + chat_step Hinput.
      rewrite respond_and_read.
      chat_step Hinput. reflexivity.
    + cbn [messages calls isLoading]. rewrite lookup_end_0. auto.
Qed.

(** X11: starting a new chat, or switching to another one, does not stop
    a call of [sendMessage] that is under way.  When the chat is changed
    while the request is out, the answer is appended to the new chat, without
    the question it answers; a failure puts the apology there.  The request
    that was posted carried the old chat as its history. *)
Theorem chat_change_does_not_cancel (now now' : string) (e : Event)
    (chunks : list string) (p : Page) :
  trim (input p) <> "" ->
  clears_messages e = true ->
  (exists p',
      run ([Send now; e; Responded (length (calls p)) true true]
             ++ map (Chunk (length (calls p))) chunks
             ++ [Done (length (calls p)) now']) p = Some p' /\
      messages p' =
        [{| role := assistant; content := join chunks; timestamp := Some now' |}] /\
      (conversation_history ∘ request) <$> calls p' !! length (calls p) =
        Some (messages p)) /\
  (exists p',
      run [Send now; e; Rejected (length (calls p))] p = Some p' /\
      messages p' = [errorMessage]).
Proof.
  intros Hinput He. apply String.eqb_neq in Hinput.
  destruct p as [ms inp l sym ss cur cs]. simpl in Hinput.
  destruct e as [| | |millis t|sessionId| | | |]; try discriminate; split.
  - eexists. split.
    + chat_step Hinput. chat_step Hinput.
      rewrite respond_and_read.
      chat_step Hinput. reflexivity.
    + cbn [messages calls]. now rewrite lookup_end_0.
  - eexists. split.
    + chat_step Hinput. chat_step Hinput. chat_step Hinput. reflexivity.
    + reflexivity.
  - eexists. split.
    + chat_step Hinput. chat_step Hinput.
      rewrite respond_and_read.
      chat_step Hinput. reflexivity.
    + cbn [messages calls]. now rewrite lookup_end_0.
  - eexists. split.
    + chat_step Hinput. chat_step Hinput. chat_step Hinput. reflexivity.
    + reflexivity.
Qed.

(** X12: a second question sent while the first answer is still being
    read.  Every chunk is written to whatever message is last.  A chunk of
    the first answer that arrives after the second question and before the
    second answer has started changes nothing on the page; once the second
    answer has started, a chunk of either call replaces its content with
    that call's whole text so far, and the end of the first body stamps it
    while the second call is still reading.  The first answer keeps the part
    it had when the second question was sent and never gets a timestamp. *)
Theorem overlapping_answers_share_last_message
    (now1 now2 now3 a b d e question : string) (p : Page) :
  trim (input p) <> "" ->
  trim question <> "" ->
  exists p1 p2 p',
    run [Send now1; Responded (length (calls p)) true true; Chunk (length (calls p)) a;
         Typed question; Send now2; Chunk (length (calls p)) b;
         Responded (S (length (calls p))) true true; Chunk (length (calls p)) d] p = Some p1 /\
    messages p1 =
      messages p ++
        [{| role := user; content := input p; timestamp := Some now1 |};
         {| role := assistant; content := a; timestamp := None |};
         {| role := user; content := question; timestamp := Some now2 |};
         {| role := assistant; content := a +:+ b +:+ d; timestamp := None |}] /\
    step (Chunk (S (length (calls p))) e) p1 = Some p2 /\
    step (Done (length (calls p)) now3) p2 = Some p' /\
    messages p' =
      messages p ++
        [{| role := user; content := input p; timestamp := Some now1 |};
         {| role := assistant; content := a; timestamp := None |};
         {| role := user; content := question; timestamp := Some now2 |};
         {| role := assistant; content := e; timestamp := Some now3 |}] /\
    progress <$> calls p' !! length (calls p) = Some settled /\
    progress <$> calls p' !! S (length (calls p)) = Some (reading e).
Proof.
  intros Hinput Hquestion. apply String.eqb_neq in Hinput, Hquestion.
  destruct p as [ms inp l sym ss cur cs]. simpl in Hinput.
  do 3 eexists. split; [| split; [| split; [| split]]].
  - chat_step Hinput. chat_step Hinput. chat_step Hinput. chat_step Hinput.
    chat_step Hquestion. chat_step Hinput. chat_step Hinput. chat_step Hinput.
    reflexivity.
  - cbn [messages]. now rewrite <- append_assoc.
  - chat_step Hinput. reflexivity.
  - chat_step Hinput. reflexivity.
  - cbn [messages calls]. rewrite lookup_end_0, lookup_end_1. auto.
Qed.

(** ** What no event changes *)

Lemma step_final (e : Event) (p p' : Page) (i : nat) (m : Message) :
  clears_messages e = false ->
  step e p = Some p' ->
  messages p !! i = Some m ->
  role m = user \/ S i < length (messages p) ->
  messages p' !! i = Some m /\ length (messages p) <= length (messages p').
Proof.
  intros He Hstep Hi Hr.
  assert (Hsnoc : forall x, (messages p ++ [x]) !! i = Some m /\
                            length (messages p) <= length (messages p ++ [x])).
  { intros x. split; [now apply lookup_app_l_Some | rewrite length_app; lia]. }
  assert (Hupd : forall f, update_last_assistant f (messages p) !! i = Some m /\
                           length (messages p) <=
                             length (update_last_assistant f (messages p))).
  { intros f. split; [now apply update_last_final | now rewrite update_last_length]. }
  destruct e as [text|sym|now|millis now|sessionId|c ok has_body|c|c text|c now];
    try discriminate; simpl in Hstep.
  - injection Hstep as <-. auto.
  - injection Hstep as <-. auto.
  - injection Hstep as <-. unfold sendMessage.
    destruct (String.eqb (trim (input p)) ""); [auto | apply Hsnoc].
  - destruct (calls p !! c) as [[req g]|]; [| discriminate]. simpl in Hstep.
    destruct g; try discriminate. injection Hstep as <-.
    unfold sendMessage_response. destruct ok; simpl; apply Hsnoc.
  - destruct (calls p !! c) as [[req g]|]; [| discriminate]. simpl in Hstep.
    destruct g; try discriminate; injection Hstep as <-; apply Hsnoc.
  - destruct (calls p !! c) as [[req g]|]; [| discriminate]. simpl in Hstep.
    destruct g; try discriminate. injection Hstep as <-. apply Hupd.
  - destruct (calls p !! c) as [[req g]|]; [| discriminate]. simpl in Hstep.
    destruct g; try discriminate. injection Hstep as <-. apply Hupd.
Qed.

(** X13: within one chat only the last message can still change, and
    only if it is an assistant message.  As long as no new chat is started
    and no other chat is switched to, every user message, and every message
    that is followed by another, stays in its place exactly as it is,
    whatever is typed, sent, received or fails, in any number of calls. *)
Theorem earlier_messages_are_final (es : list Event) (p p' : Page) (i : nat) (m : Message) :
  forallb (fun e => negb (clears_messages e)) es = true ->
  run es p = Some p' ->
  messages p !! i = Some m ->
  role m = user \/ S i < length (messages p) ->
  messages p' !! i = Some m.
Proof.
  revert p. induction es as [|e es IH]; intros p Hes Hrun Hi Hr; simpl in Hes, Hrun.
  - now injection Hrun as <-.
  - apply andb_prop in Hes as [He Hes]. apply negb_true_iff in He.
    destruct (step e p) as [p1|] eqn:Hstep; [| discriminate].
    destruct (step_final e p p1 i m He Hstep Hi Hr) as [Hi1 Hlen].
    apply (IH p1 Hes Hrun Hi1). destruct Hr as [Hr | Hr]; [now left | right; lia].
Qed.

End ChatProperties.

(** * The further properties on the BTC subscription and on a chat *)

Ltac evaluated := first [reflexivity | vm_compute; first [lia | congruence]].

Section MoreRuns.
#[local] Existing Instance default_deployment.

(** [attempts_never_exceed_maximum] on five failures and a sixth close. *)
Lemma attempts_never_exceed_maximum_witness :
  reconnectAttemptsRef
    (reached (consecutive_failures 0 [false; true; false; false; true] ++ [WsClose 5]))
  <= MAX_RECONNECT_ATTEMPTS.
Proof.
  apply (attempts_never_exceed_maximum "BTC"
           (consecutive_failures 0 [false; true; false; false; true] ++ [WsClose 5])).
  vm_compute. reflexivity.
Defined.

(** [data_is_latest_update] on an update followed by a server error, a
    close and a reconnect. *)
Lemma data_is_latest_update_witness :
  data (state (reached
                 [WsOpen 0;
                  WsMessage 0 (json_text (update_frame "t1" sample_snapshot JNull JNull JNull));
                  WsMessage 0 (json_text (error_frame "boom"));
                  WsClose 0; TimerFire 0])) =
    {| snapshot := json sample_snapshot; anomalies := null;
       tempo := null; timeline := null |} /\
  lastUpdate (state (reached
                       [WsOpen 0;
                        WsMessage 0
                          (json_text (update_frame "t1" sample_snapshot JNull JNull JNull));
                        WsMessage 0 (json_text (error_frame "boom"));
                        WsClose 0; TimerFire 0])) = str "t1".
Proof.
  refine (data_is_latest_update "BTC"
            [WsOpen 0;
             WsMessage 0 (json_text (update_frame "t1" sample_snapshot JNull JNull JNull));
             WsMessage 0 (json_text (error_frame "boom"));
             WsClose 0; TimerFire 0] _ _).
  vm_compute. reflexivity.
Defined.

(** [late_close_reconnects_old_symbol] on the opened BTC subscription,
    changed to ETH. *)
Lemma late_close_reconnects_old_symbol_witness :
  exists h' h'',
    run [SymbolChange "ETH"; WsClose 0; TimerFire 0] btc_opened = Some h' /\
    sockets h' =
      [{| url := "ws://localhost:8000/api/v1/market/radar/ws/BTCUSDT";
          readyState := CLOSED; closure_symbol := "BTC" |};
       {| url := "ws://localhost:8000/api/v1/market/radar/ws/ETHUSDT";
          readyState := CONNECTING; closure_symbol := "ETH" |};
       {| url := "ws://localhost:8000/api/v1/market/radar/ws/BTCUSDT";
          readyState := CONNECTING; closure_symbol := "BTC" |}] /\
    wsRef h' = Some 2 /\
    symbol h' = "ETH" /\
    step Unmount h' = Some h'' /\
    sockets h'' !! 1 =
      Some {| url := "ws://localhost:8000/api/v1/market/radar/ws/ETHUSDT";
              readyState := CONNECTING; closure_symbol := "ETH" |}.
Proof.
  refine (late_close_reconnects_old_symbol "ETH" btc_opened 0
            {| url := "ws://localhost:8000/api/v1/market/radar/ws/BTCUSDT";
               readyState := OPEN; closure_symbol := "BTC" |} _ _ _ _ _ _ _ _);
    evaluated.
Defined.

(** [unmount_is_final] on the opened BTC subscription and the close event
    of its socket. *)
Lemma unmount_is_final_witness :
  length (sockets (reached [WsOpen 0; Unmount; WsClose 0])) = 1 /\
  torn_down (reached [WsOpen 0; Unmount; WsClose 0]) /\
  Forall (fun e => exists ws, e = WsClose ws \/ e = WsFail ws) [WsClose 0].
Proof.
  refine (unmount_is_final btc_opened (reached [WsOpen 0; Unmount; WsClose 0])
            [WsClose 0] _ _ _); [| reflexivity | vm_compute; reflexivity].
  constructor.
  - reflexivity.
  - intros [|i] w Hw Hr; [reflexivity | discriminate].
  - intros [|t] sym Ht; discriminate.
Defined.

(** [budget_survives_symbol_change] after five failures of the BTC
    subscription, changed to ETH. *)
Lemma budget_survives_symbol_change_witness :
  reconnectAttemptsRef (reached (consecutive_failures 0 [false; false; false; false; false]))
    = 5 /\
  exists h1 h2,
    step (SymbolChange "ETH")
      (reached (consecutive_failures 0 [false; false; false; false; false])) = Some h1 /\
    reconnectAttemptsRef h1 = 5 /\
    sockets h1 !! 6 =
      Some {| url := "ws://localhost:8000/api/v1/market/radar/ws/ETHUSDT";
              readyState := CONNECTING; closure_symbol := "ETH" |} /\
    step (WsClose 6) h1 = Some h2 /\
    error (state h2) =
      str "Failed to connect after multiple attempts. Please refresh the page." /\
    timers h2 = timers h1 /\
    wsRef h2 = None.
Proof.
  split; [reflexivity |].
  refine (budget_survives_symbol_change "ETH" false
            (reached (consecutive_failures 0 [false; false; false; false; false]))
            _ _ _ _);
    evaluated.
Defined.

(** [result_as_declared] on an update followed by a server error. *)
Lemma result_as_declared_witness :
  as_declared (state btc_showing_error) = true /\
  http_fallback (snapshot (data (state btc_showing_error))) = false /\
  http_fallback (anomalies (data (state btc_showing_error))) = false /\
  http_fallback (tempo (data (state btc_showing_error))) = false /\
  http_fallback (timeline (data (state btc_showing_error))) = false.
Proof.
  apply (result_as_declared "BTC"
           [WsOpen 0;
            WsMessage 0 (json_text (update_frame "t1" sample_snapshot JNull JNull JNull));
            WsMessage 0 (json_text (error_frame "boom"))]
           btc_showing_error); reflexivity.
Defined.

(** [status_never_back_to_connecting] on the opened BTC subscription,
    whose socket closes and is replaced. *)
Lemma status_never_back_to_connecting_witness :
  connection_status (state btc_opened) = "Connected" /\
  forall h2,
    run [WsClose 0; TimerFire 0] btc_opened = Some h2 ->
    connection_status (state h2) <> "Connecting...".
Proof.
  split; [reflexivity |]. intros h2 Hrun.
  apply (status_never_back_to_connecting "BTC" [WsOpen 0] [WsClose 0; TimerFire 0]
           btc_opened h2); [reflexivity | exact Hrun | evaluated].
Defined.

End MoreRuns.

Section ChatRuns.
Import Chat.
#[local] Existing Instance ascii_trim.

(** [exchange_streams_in_order] on the sample question and an answer in
    two chunks. *)
Lemma exchange_streams_in_order_witness :
  exists p',
    run [Send "2024-05-01T10:00:05.000Z"; Responded 0 true true;
         Chunk 0 "Hold"; Chunk 0 " for now."; Done 0 "2024-05-01T10:00:09.000Z"] asking
      = Some p' /\
    messages p' =
      [{| role := user; content := "Should I buy BTC now?";
          timestamp := Some "2024-05-01T10:00:05.000Z" |};
       {| role := assistant; content := "Hold for now.";
          timestamp := Some "2024-05-01T10:00:09.000Z" |}] /\
    calls p' =
      [{| request := {| message := "Should I buy BTC now?"; symbol := "BTCUSDT";
                        conversation_history := [] |};
          progress := settled |}] /\
    input p' = "" /\
    isLoading p' = false.
Proof.
  refine (exchange_streams_in_order "2024-05-01T10:00:05.000Z" "2024-05-01T10:00:09.000Z"
            ["Hold"; " for now."] asking _).
  evaluated.
Defined.

(** [failed_exchange_apologises] on the sample question. *)
Lemma failed_exchange_apologises_witness :
  (exists p',
      run [Send "2024-05-01T10:00:05.000Z"; Rejected 0] asking = Some p' /\
      run [Send "2024-05-01T10:00:05.000Z"; Responded 0 false true] asking = Some p' /\
      messages p' =
        [{| role := user; content := "Should I buy BTC now?";
            timestamp := Some "2024-05-01T10:00:05.000Z" |};
         errorMessage] /\
      isLoading p' = false /\
      progress <$> calls p' !! 0 = Some settled) /\
  (exists p',
      run [Send "2024-05-01T10:00:05.000Z"; Responded 0 true true;
           Chunk 0 "Hold"; Rejected 0] asking = Some p' /\
      messages p' =
        [{| role := user; content := "Should I buy BTC now?";
            timestamp := Some "2024-05-01T10:00:05.000Z" |};
         {| role := assistant; content := "Hold"; timestamp := None |};
         errorMessage] /\
      isLoading p' = false /\
      progress <$> calls p' !! 0 = Some settled).
Proof.
  refine (failed_exchange_apologises "2024-05-01T10:00:05.000Z" true ["Hold"] asking _).
  evaluated.
Defined.

(** [chat_change_does_not_cancel] on the sample question and a new chat. *)
Lemma chat_change_does_not_cancel_witness :
  (exists p',
      run [Send "2024-05-01T10:00:05.000Z";
           NewChat "1714557606000" "2024-05-01T10:00:06.000Z";
           Responded 0 true true; Chunk 0 "Hold";
           Done 0 "2024-05-01T10:00:09.000Z"] asking = Some p' /\
      messages p' =
        [{| role := assistant; content := "Hold";
            timestamp := Some "2024-05-01T10:00:09.000Z" |}] /\
      (conversation_history ∘ request) <$> calls p' !! 0 = Some []) /\
  (exists p',
      run [Send "2024-05-01T10:00:05.000Z";
           NewChat "1714557606000" "2024-05-01T10:00:06.000Z";
           Rejected 0] asking = Some p' /\
      messages p' = [errorMessage]).
Proof.
  refine (chat_change_does_not_cancel "2024-05-01T10:00:05.000Z" "2024-05-01T10:00:09.000Z"
            (NewChat "1714557606000" "2024-05-01T10:00:06.000Z") ["Hold"] asking _ _);
    evaluated.
Defined.

(** [overlapping_answers_share_last_message] on the sample question and a
    second one. *)
Lemma overlapping_answers_share_last_message_witness :
  exists p1 p2 p',
    run [Send "2024-05-01T10:00:05.000Z"; Responded 0 true true; Chunk 0 "Hold";
         Typed "And ETH?"; Send "2024-05-01T10:00:07.000Z"; Chunk 0 " for";
         Responded 1 true true; Chunk 0 " now."] asking = Some p1 /\
    messages p1 =
      [{| role := user; content := "Should I buy BTC now?";
          timestamp := Some "2024-05-01T10:00:05.000Z" |};
       {| role := assistant; content := "Hold"; timestamp := None |};
       {| role := user; content := "And ETH?";
          timestamp := Some "2024-05-01T10:00:07.000Z" |};
       {| role := assistant; content := "Hold for now."; timestamp := None |}] /\
    step (Chunk 1 "Sell") p1 = Some p2 /\
    step (Done 0 "2024-05-01T10:00:09.000Z") p2 = Some p' /\
    messages p' =
      [{| role := user; content := "Should I buy BTC now?";
          timestamp := Some "2024-05-01T10:00:05.000Z" |};
       {| role := assistant; content := "Hold"; timestamp := None |};
       {| role := user; content := "And ETH?";
          timestamp := Some "2024-05-01T10:00:07.000Z" |};
       {| role := assistant; content := "Sell";
          timestamp := Some "2024-05-01T10:00:09.000Z" |}] /\
    progress <$> calls p' !! 0 = Some settled /\
    progress <$> calls p' !! 1 = Some (reading "Sell").
Proof.
  refine (overlapping_answers_share_last_message
            "2024-05-01T10:00:05.000Z" "2024-05-01T10:00:07.000Z" "2024-05-01T10:00:09.000Z"
            "Hold" " for" " now." "Sell" "And ETH?" asking _ _);
    evaluated.
Defined.

(** [earlier_messages_are_final] on the question sent, whose answer breaks
    off while the next question is being typed. *)
Lemma earlier_messages_are_final_witness :
  (exists p',
      run [Responded 0 true true; Chunk 0 "Hold"; Typed "And ETH?"; Rejected 0] asked
        = Some p') /\
  (forall p',
      run [Responded 0 true true; Chunk 0 "Hold"; Typed "And ETH?"; Rejected 0] asked
        = Some p' ->
      messages p' !! 0 =
        Some {| role := user; content := "Should I buy BTC now?";
                timestamp := Some "2024-05-01T10:00:05.000Z" |}).
Proof.
  split; [eexists; reflexivity |]. intros p' Hrun.
  apply (earlier_messages_are_final
           [Responded 0 true true; Chunk 0 "Hold"; Typed "And ETH?"; Rejected 0]
           asked p' 0); [reflexivity | exact Hrun | reflexivity | left; reflexivity].
Defined.

End ChatRuns.
